(** * The Python Shakespeare Ciphers: anagram index, substring search and
      cached text acquisition

    A shallow embedding of the functions of
    [the_python_shakespeare_ciphers.ipynb] and the properties its
    specification states about them.

    Python [str] values are modelled as [string]; a character is a code
    point in the range U+0000..U+00FF (one [ascii] value), on which
    [str.isalpha], [str.isspace] and [str.lower] follow the Unicode
    character database used by CPython.  A [dict] is a [gmap], a [set] a
    [gset]; Python integers are [Z]. *)

From stdpp Require Import gmap strings list sorting.
From Stdlib Require Import ZArith Ascii.

Local Open Scope Z_scope.

(** ** Python string built-ins *)

Module PyStr.

(** [ord(c)] *)
Definition ord (c : ascii) : N := Ascii.N_of_ascii c.

Definition in_range (lo hi : N) (c : ascii) : bool :=
  ((lo <=? ord c) && (ord c <=? hi))%N.

(** Upper-case letters: A-Z, U+00C0..U+00D6, U+00D8..U+00DE. *)
Definition isupper_char (c : ascii) : bool :=
  in_range 65 90 c || in_range 192 214 c || in_range 216 222 c.

(** Alphabetic characters: the letters, U+00AA, U+00B5 and U+00BA. *)
Definition isalpha_char (c : ascii) : bool :=
  in_range 65 90 c || in_range 97 122 c
  || in_range 170 170 c || in_range 181 181 c || in_range 186 186 c
  || in_range 192 214 c || in_range 216 246 c || in_range 248 255 c.

(** White space: U+0009..U+000D, U+001C..U+0020, U+0085, U+00A0. *)
Definition isspace_char (c : ascii) : bool :=
  in_range 9 13 c || in_range 28 32 c
  || in_range 133 133 c || in_range 160 160 c.

(** An upper-case letter is 32 code points below its lower-case one. *)
Definition lower_char (c : ascii) : ascii :=
  if isupper_char c then Ascii.ascii_of_N (ord c + 32) else c.

Definition chars (s : string) : list ascii := String.list_ascii_of_string s.

(** [''.join(cs)] for a list of one-character strings. *)
Definition join (cs : list ascii) : string := String.string_of_list_ascii cs.

(** [s.lower()] *)
Fixpoint lower (s : string) : string :=
  match s with
  | EmptyString => EmptyString
  | String c s' => String (lower_char c) (lower s')
  end.

Fixpoint all_alpha (s : string) : bool :=
  match s with
  | EmptyString => true
  | String c s' => isalpha_char c && all_alpha s'
  end.

(** [s.isalpha()]: every character is alphabetic and there is at least
    one. *)
Definition isalpha (s : string) : bool :=
  match s with
  | EmptyString => false
  | String _ _ => all_alpha s
  end.

Definition ord_le (a b : ascii) : Prop := (ord a ≤ ord b)%N.

#[global] Instance ord_le_dec : RelDecision ord_le.
Proof. intros a b. unfold ord_le. apply _. Defined.

(** [sorted(s)]: the characters of [s] in ascending code-point order. *)
Definition sorted (s : string) : list ascii := merge_sort ord_le (chars s).

(** [len(s)] *)
Definition len (s : string) : Z := Z.of_nat (length (chars s)).

(** [s.startswith(sub)] on character lists. *)
Fixpoint startswith (s sub : list ascii) : bool :=
  match sub, s with
  | [], _ => true
  | _ :: _, [] => false
  | k :: sub', c :: s' => bool_decide (k = c) && startswith s' sub'
  end.

(** Left-to-right scan of [s], the part of the text from offset [i] on:
    the first offset at which [sub] starts, or [-1]. *)
Fixpoint find_from (sub s : list ascii) (i : Z) : Z :=
  if startswith s sub then i
  else match s with
       | [] => -1
       | _ :: s' => find_from sub s' (i + 1)
       end.

(** [text.find(sub, start)]: a negative [start] counts from the end, a
    [start] beyond the end finds nothing (not even the empty string). *)
Definition find (text sub : string) (start : Z) : Z :=
  let start := if start <? 0 then Z.max 0 (start + len text) else start in
  if len text <? start then -1
  else find_from (chars sub) (drop (Z.to_nat start) (chars text)) start.

(** [s[i]]: a negative index counts from the end; [None] stands for
    the [IndexError] of an index out of range. *)
Definition getitem (s : string) (i : Z) : option ascii :=
  let i := if i <? 0 then i + len s else i in
  if (i <? 0) || (len s <=? i) then None else chars s !! Z.to_nat i.

Definition clamp (s : string) (i : Z) : Z :=
  let i := if i <? 0 then i + len s else i in
  Z.max 0 (Z.min (len s) i).

(** [s[start:stop]] *)
Definition slice (s : string) (start stop : Z) : string :=
  let a := clamp s start in
  let b := clamp s stop in
  join (take (Z.to_nat (b - a)) (drop (Z.to_nat a) (chars s))).

(** [s.replace(p, '')] for a one-character [p]. *)
Fixpoint remove (p : ascii) (s : string) : string :=
  match s with
  | EmptyString => EmptyString
  | String c s' => if decide (c = p) then remove p s' else String c (remove p s')
  end.

Definition flush (cur : list ascii) : list string :=
  match cur with
  | [] => []
  | _ :: _ => [join (rev cur)]
  end.

(** [s.split()]: the maximal runs of non-blank characters; [cur] holds
    the current run, last character first. *)
Fixpoint split_blank (cur : list ascii) (s : string) : list string :=
  match s with
  | EmptyString => flush cur
  | String c s' =>
      if isspace_char c then flush cur ++ split_blank [] s'
      else split_blank (c :: cur) s'
  end.

Definition split (s : string) : list string := split_blank [] s.

(** [s.split(sep)] for a one-character [sep]: empty fields are kept. *)
Fixpoint split_sep (sep : ascii) (cur : list ascii) (s : string) : list string :=
  match s with
  | EmptyString => [join (rev cur)]
  | String c s' =>
      if decide (c = sep) then join (rev cur) :: split_sep sep [] s'
      else split_sep sep (c :: cur) s'
  end.

Definition split_on (sep : ascii) (s : string) : list string :=
  split_sep sep [] s.

Definition newline : ascii := "010"%char.

End PyStr.

(** ** Anagram index *)

(** [''.join(sorted(word)).lower()], the key computed by both
    [get_anagrams] and [get_anagrams_from_word]. *)
Definition signature (word : string) : string :=
  PyStr.lower (PyStr.join (PyStr.sorted word)).

(** One iteration of the loop of [get_anagrams]. *)
Definition get_anagrams_step (anagram_dict : gmap string (list string))
    (word : string) : gmap string (list string) :=
  let word_sorted := signature word in
  match anagram_dict !! word_sorted with
  | Some group => <[word_sorted := group ++ [word]]> anagram_dict
  | None => <[word_sorted := [word]]> anagram_dict
  end.

Definition get_anagrams (words : list string) : gmap string (list string) :=
  foldl get_anagrams_step ∅ words.

Definition get_anagrams_from_word (anagram_dict : gmap string (list string))
    (word : string) : list string :=
  let word_sorted := signature word in
  match anagram_dict !! word_sorted with
  | Some group => group
  | None => []
  end.

(** The words of [words] whose signature is [k], in input order. *)
Definition group_of (k : string) (words : list string) : list string :=
  filter (λ w, signature w = k) words.

(** No member of [words] other than the query has the query's signature. *)
Definition no_other_member_shares (words : list string) (word : string) : Prop :=
  ∀ x, x ∈ words → x ≠ word → signature x ≠ signature word.


(** ** Substring search *)

(** The loop of [find_quotes]; [None] when [fuel] iterations were not
    enough to leave it. *)
Fixpoint find_quotes_loop (fuel : nat) (text keyword : string) (i : Z)
    (indices : list Z) : option (list Z) :=
  match fuel with
  | O => None
  | S fuel' =>
      if bool_decide (i ≠ -1) then
        find_quotes_loop fuel' text keyword
          (PyStr.find text keyword (i + 1)) (indices ++ [i])
      else Some indices
  end.

Definition find_quotes (fuel : nat) (text keyword : string) : option (list Z) :=
  find_quotes_loop fuel text keyword (PyStr.find text keyword 0) [].

(** The keyword starts at offset [i] of the text: [text[i:i+len(keyword)]
    == keyword], with [i] an offset of the text. *)
Definition occurs_at (text keyword : string) (i : Z) : Prop :=
  0 ≤ i ≤ PyStr.len text ∧
  PyStr.slice text i (i + PyStr.len keyword) = keyword.

(** The offsets [n], [n+1], ... at which [sub] starts, [s] being the
    text from offset [n] on. *)
Fixpoint hits_from (sub s : list ascii) (n : Z) : list Z :=
  (if PyStr.startswith s sub then [n] else []) ++
  match s with
  | [] => []
  | _ :: s' => hits_from sub s' (n + 1)
  end.

(** Occurrences listed left to right none of which overlaps the next. *)
Fixpoint non_overlapping (width : Z) (offsets : list Z) : Prop :=
  match offsets with
  | i :: ((j :: _) as rest) => i + width ≤ j ∧ non_overlapping width rest
  | _ => True
  end.

(** ** Word lists *)

Definition punctuation : list ascii :=
  [".";  ","; "!"; "?"; ";"; ":"; "("; ")"; "["; "]"; "{"; "}"; "034"; "'"]%char.

Definition get_words (corpus : string) : list string :=
  let corpus := foldl (λ corpus p, PyStr.remove p corpus) corpus punctuation in
  let words := elements (list_to_set (PyStr.split corpus) : gset string) in
  let filtered_words :=
    foldl (λ filtered_words word,
             if PyStr.isalpha word then filtered_words ++ [PyStr.lower word]
             else filtered_words) [] words in
  elements (list_to_set filtered_words : gset string).

(** [list(set(shakespearean_words + uk_word_list))] *)
Definition all_words (shakespearean_words uk_word_list : list string) : list string :=
  elements (list_to_set (shakespearean_words ++ uk_word_list) : gset string).

(** A purely alphabetic, entirely lowercase string. *)
Definition lowercase_word (w : string) : Prop :=
  PyStr.isalpha w = true ∧ PyStr.lower w = w.

(** ** Acquisition: files, network and printed output *)

Inductive exn_class :=
  | IndexError | FileNotFoundError | IsADirectoryError
  | URLError | IncompleteRead | BadZipFile.

(** A raised exception; [exn_msg] is what [{e}] prints. *)
Record exn := Exn { exn_cls : exn_class; exn_msg : string }.

(** What a statement does: complete with a value, raise, or still be
    running when the fuel of a loop is used up. *)
Inductive outcome (A : Type) :=
  | Ret (a : A)
  | Raise (e : exn)
  | OutOfFuel.
Arguments Ret {A} a.
Arguments Raise {A} e.
Arguments OutOfFuel {A}.

(** The part of the machine the notebook acts on. *)
Record world := World {
  files : gmap string string;   (* path to content of each regular file *)
  dirs : gset string;           (* the directories that exist *)
  stdout : list string;         (* printed lines, oldest first *)
  fetched : list string;        (* URLs requested over the network *)
}.

(** What lies outside the notebook: the replies of the remote hosts and
    the library decoders.  A [urlopen] reply is a response whose [read()]
    in turn fails or gives the body.  A download or an extraction that
    fails may already have written to disk: [urlretrieve_partial] is what
    a failed [urlretrieve] had written to its target file, if it had
    opened it, and [unzip_partial] the members a failed extraction had
    written, in order. *)
Record environment := Environment {
  urlretrieve_reply : string → exn + string;
  urlopen_reply : string → exn + (exn + string);
  unzip : string → exn + list (string * string);
  decode_cp850 : string → string;
  urlretrieve_partial : string → option string;
  unzip_partial : string → list (string * string);
}.

Definition M (A : Type) : Type := world → outcome A * world.

#[global] Instance M_ret : MRet M := λ A a w, (Ret a, w).

#[global] Instance M_bind : MBind M := λ A B f m w,
  match m w with
  | (Ret a, w') => f a w'
  | (Raise e, w') => (Raise e, w')
  | (OutOfFuel, w') => (OutOfFuel, w')
  end.

Definition raise {A} (e : exn) : M A := λ w, (Raise e, w).

(** [try: body / except Exception as e: handler e] *)
Definition try_except {A} (body : M A) (handler : exn → M A) : M A := λ w,
  match body w with
  | (Raise e, w') => handler e w'
  | r => r
  end.

(** Lift a pure computation that may raise or run out of fuel. *)
Definition lift {A} (o : outcome A) : M A := λ w, (o, w).

Definition print (line : string) : M () := λ w,
  (Ret (), World (files w) (dirs w) (stdout w ++ [line]) (fetched w)).

Definition os_path_exists (path : string) : M bool := λ w,
  (Ret (bool_decide (path ∈ dom (files w)) || bool_decide (path ∈ dirs w)), w).

(** [os.makedirs(path)] where it succeeds: [path] is not empty and none
    of its ancestors is a regular file; the directory itself is
    recorded. *)
Definition os_makedirs (path : string) : M () := λ w,
  (Ret (), World (files w) ({[path]} ∪ dirs w) (stdout w) (fetched w)).

Definition last_char (s : string) : option ascii := last (PyStr.chars s).

Definition first_char (s : string) : option ascii := head (PyStr.chars s).

(** [os.path.join(a, b)] on a POSIX system. *)
Definition os_path_join (a b : string) : string :=
  if bool_decide (first_char b = Some "/"%char) then b
  else if bool_decide (a = "") || bool_decide (last_char a = Some "/"%char)
       then a +:+ b
       else a +:+ "/" +:+ b.

(** [open(path).read()] and [open(path, 'rb').read()].  In text mode the
    stored bytes are decoded and CR LF and CR turned into LF; what is
    returned is the stored content for content that this leaves as it
    is ([plain_text] below). *)
Definition read_file (path : string) : M string := λ w,
  match files w !! path with
  | Some content => (Ret content, w)
  | None =>
      if bool_decide (path ∈ dirs w)
      then (Raise (Exn IsADirectoryError path), w)
      else (Raise (Exn FileNotFoundError path), w)
  end.

(** [open(path, "w").write(content)] where the directory of [path]
    exists and is writable. *)
Definition write_file (path content : string) : M () := λ w,
  (Ret (), World (<[path := content]> (files w)) (dirs w) (stdout w) (fetched w)).

Definition request (url : string) : M () := λ w,
  (Ret (), World (files w) (dirs w) (stdout w) (fetched w ++ [url])).

Section Acquisition.
Variable env : environment.

(** [urllib.request.urlretrieve(url, filepath)]: a transfer that breaks
    off raises after part of the body was written to [filepath]. *)
Definition urlretrieve (url filepath : string) : M () :=
  _ ← request url;
  match urlretrieve_reply env url with
  | inl e =>
      _ ← match urlretrieve_partial env url with
          | Some written => write_file filepath written
          | None => mret ()
          end;
      raise e
  | inr body => write_file filepath body
  end.

(** [urllib.request.urlopen(url)] *)
Definition urlopen (url : string) : M (exn + string) :=
  _ ← request url;
  match urlopen_reply env url with
  | inl e => raise e
  | inr response => mret response
  end.

(** [response.read()] *)
Definition response_read (response : exn + string) : M string :=
  match response with
  | inl e => raise e
  | inr body => mret body
  end.

(** The members of an archive written one after the other into
    [directory], which the first of them creates. *)
Definition extract_members (members : list (string * string)) (directory : string)
    : M () :=
  foldl (λ (k : M ()) '(name, content),
           _ ← k;
           _ ← os_makedirs directory;
           write_file (os_path_join directory name) content)
        (mret ()) members.

(** [ZipFile(BytesIO(zipcontent)).extractall(directory)]: an extraction
    that fails raises after the members before the faulty one were
    written. *)
Definition extractall (zipcontent directory : string) : M () :=
  match unzip env zipcontent with
  | inl e => _ ← extract_members (unzip_partial env zipcontent) directory; raise e
  | inr members => extract_members members directory
  end.

Definition download_text (url destination_directory filename : string)
    : M (option string) :=
  dir_exists ← os_path_exists destination_directory;
  _ ← (if negb dir_exists then os_makedirs destination_directory else mret ());
  let filepath := os_path_join destination_directory filename in
  file_exists ← os_path_exists filepath;
  proceed ←
    (if negb file_exists then
       downloaded ←
         try_except (_ ← urlretrieve url filepath; mret true)
           (λ e, _ ← print ("Failed to download " +:+ url +:+ " to "
                             +:+ filepath +:+ ": " +:+ exn_msg e);
                 mret false);
       if downloaded : bool then
         _ ← print ("Downloaded " +:+ url +:+ " to " +:+ filepath); mret true
       else mret false
     else
       _ ← print ("Reading from cached file " +:+ filepath); mret true);
  if proceed : bool then
    text ← read_file filepath; mret (Some text)
  else mret None.

Definition start_tok : string := "WILLIAM SHAKESPEARE ***".
Definition end_tok : string := "*** END OF THE PROJECT GUTENBERG EBOOK".

(** [while text[start] == '\n': start += 1] *)
Fixpoint skip_newlines (fuel : nat) (text : string) (start : Z) : outcome Z :=
  match fuel with
  | O => OutOfFuel
  | S fuel' =>
      match PyStr.getitem text start with
      | None => Raise (Exn IndexError "string index out of range")
      | Some c =>
          if decide (c = PyStr.newline) then skip_newlines fuel' text (start + 1)
          else Ret start
      end
  end.

(** [while text[end-1] == '\n': end -= 1] *)
Fixpoint strip_newlines (fuel : nat) (text : string) (end_ : Z) : outcome Z :=
  match fuel with
  | O => OutOfFuel
  | S fuel' =>
      match PyStr.getitem text (end_ - 1) with
      | None => Raise (Exn IndexError "string index out of range")
      | Some c =>
          if decide (c = PyStr.newline) then strip_newlines fuel' text (end_ - 1)
          else Ret end_
      end
  end.

(** Each loop moves its index by one per iteration over at most the
    whole text (the second may wrap around to the end once), so this
    many iterations always leave it. *)
Definition loop_fuel (text : string) : nat := S (2 * length (PyStr.chars text)).

Definition filter_text (text destination_directory filename : string)
    : M (option string) :=
  let filepath := os_path_join destination_directory filename in
  cached ← os_path_exists filepath;
  if cached : bool then
    _ ← print ("Reading from cached file " +:+ filepath);
    content ← read_file filepath; mret (Some content)
  else
    let start := PyStr.find text start_tok 0 in
    if bool_decide (start = -1) then
      _ ← print "Unexpected text format"; mret None
    else
      let start := start + PyStr.len start_tok in
      start ← lift (skip_newlines (loop_fuel text) text start);
      let end_ := PyStr.find text end_tok 0 in
      if bool_decide (end_ = -1) then
        _ ← print "Unexpected text format"; mret None
      else
        end_ ← lift (strip_newlines (loop_fuel text) text end_);
        let filtered_text := PyStr.slice text start end_ in
        _ ← write_file filepath filtered_text;
        mret (Some filtered_text).

Definition ukenglish_url : string := "http://www.gwicks.net/textlists/ukenglish.zip".

(** The filter at the end of [get_uk_english_word_list]. *)
Definition filter_words (words : list string) : list string :=
  foldl (λ filtered_words word,
           if bool_decide (word ≠ PyStr.lower word) || negb (PyStr.isalpha word)
           then filtered_words
           else filtered_words ++ [word]) [] words.

Definition get_uk_english_word_list (directory : string)
    : M (option (list string)) :=
  let filename := "ukenglish.txt" in
  let filepath := os_path_join directory filename in
  cached ← os_path_exists filepath;
  words ←
    (if cached : bool then
       _ ← print ("Reading from cached file " +:+ filepath);
       raw ← read_file filepath;
       mret (Some (PyStr.split_on PyStr.newline (decode_cp850 env raw)))
     else
       let url := ukenglish_url in
       response ← urlopen url;
       zipcontent ←
         try_except (body ← response_read response; mret (Some body))
           (λ e, _ ← print ("Failed to download " +:+ url +:+ ": " +:+ exn_msg e);
                 mret None);
       match zipcontent with
       | None => mret None
       | Some zipcontent =>
           extracted ←
             try_except (_ ← extractall zipcontent directory; mret true)
               (λ e, _ ← print ("Failed to extract " +:+ url +:+ ": " +:+ exn_msg e);
                     mret false);
           if extracted : bool then
             raw ← read_file (directory +:+ "/ukenglish.txt");
             let data := decode_cp850 env raw in
             mret (Some (PyStr.split_on PyStr.newline data))
           else mret None
       end);
  match words with
  | None => mret None
  | Some words => mret (Some (filter_words words))
  end.

End Acquisition.



(** ** Concrete surroundings used in the examples *)

(** No host can be reached and no archive opens. *)
Definition offline : environment :=
  {| urlretrieve_reply := λ _, inl (Exn URLError "<urlopen error [Errno -2] Name or service not known>");
     urlopen_reply := λ _, inl (Exn URLError "<urlopen error [Errno -2] Name or service not known>");
     unzip := λ _, inl (Exn BadZipFile "File is not a zip file");
     decode_cp850 := λ raw, raw;
     urlretrieve_partial := λ _, None;
     unzip_partial := λ _, [] |}.

Definition empty_world : world := World ∅ ∅ [] [].

(** A machine on which [data/ukenglish.txt] is already there. *)
Definition cached_dictionary : world :=
  World {["data/ukenglish.txt" := "a
Aaron
ab
it's
zebra
"]} {["data"]} [] [].

(** A machine on which the filtered corpus was saved by an earlier run. *)
Definition cached_corpus : world :=
  World {["data/complete_shakespeare.txt" := "THE SONNETS"]} {["data"]} [] [].

Definition gutenberg_url : string :=
  "https://www.gutenberg.org/cache/epub/100/pg100.txt".

(** ** Further definitions: the context printer and measures of the index *)

(** The number of words stored in an index, over all its lists. *)
Definition index_size (anagram_dict : gmap string (list string)) : nat :=
  map_fold (λ _ group n, (length group + n)%nat) 0%nat anagram_dict.

Definition print_quotes (text : string) (indices : list Z) (pre post : Z) : M () :=
  foldl (λ (done_so_far : M ()) i,
           _ ← done_so_far;
           _ ← print (PyStr.slice text (i - pre) (i + post));
           print "------")
        (mret ()) indices.

(** [print_quotes(text, indices)] with the default [pre=100, post=100]. *)
Definition print_quotes_default (text : string) (indices : list Z) : M () :=
  print_quotes text indices 100 100.

(** The lines [print_quotes] prints for the offsets [indices]. *)
Definition quote_lines (text : string) (indices : list Z) (pre post : Z) : list string :=
  indices ≫= λ i, [PyStr.slice text (i - pre) (i + post); "------"].

#[global] Instance lowercase_word_dec w : Decision (lowercase_word w).
Proof. unfold lowercase_word. apply _. Defined.

(** The corpus without its punctuation characters. *)
Definition without_punctuation (corpus : string) : string :=
  PyStr.join (filter (λ c, c ∉ punctuation) (PyStr.chars corpus)).


(** ** Preconditions of the runs that write and read back files *)

(** Text that a file returns as it was written: characters below U+0080
    and no carriage return. *)
Definition plain_text (s : string) : Prop :=
  Forall (λ c, (PyStr.ord c < 128)%N ∧ c ≠ "013"%char) (PyStr.chars s).

(** A file name that names a file directly in the directory it is joined
    to. *)
Definition plain_filename (filename : string) : Prop :=
  filename ≠ "" ∧ "/"%char ∉ PyStr.chars filename.

(** The files written by extracting [members] into [directory]. *)
Definition extracted_files (members : list (string * string)) (directory : string)
    (before : gmap string string) : gmap string string :=
  foldl (λ fs '(name, content), <[os_path_join directory name := content]> fs)
        before members.

(** A machine on which only the directory [data] exists. *)
Definition data_dir_world : world := World ∅ {["data"]} [] [].
(** * Properties *)

(** ** Anagram index *)

Example listen_group :
  get_anagrams_from_word
    (get_anagrams ["listen"; "google"; "silent"; "enlist"; "banana"; "inlets"; "tinsel"])
    "listen"
  = ["listen"; "silent"; "enlist"; "inlets"; "tinsel"].
Proof. vm_compute. reflexivity. Qed.

Example tombstone_signature : signature "IPSMTO" = signature "impost".
Proof. vm_compute. reflexivity. Qed.

(** [sorted] gives the characters of the word in ascending order. *)
Lemma sorted_ascending_permutation word :
  Sorted PyStr.ord_le (PyStr.sorted word) ∧ PyStr.sorted word ≡ₚ PyStr.chars word.
Proof.
  assert (Total PyStr.ord_le) by (intros a b; unfold PyStr.ord_le; lia).
  split; [by apply Sorted_merge_sort|apply merge_sort_Permutation].
Qed.

Lemma group_of_cons k w words :
  group_of k (w :: words) =
  if decide (signature w = k) then w :: group_of k words else group_of k words.
Proof. unfold group_of. rewrite filter_cons. reflexivity. Qed.

Lemma elem_of_group_of k w words :
  w ∈ group_of k words ↔ w ∈ words ∧ signature w = k.
Proof. unfold group_of. rewrite list_elem_of_filter. tauto. Qed.

(** The loop invariant of [get_anagrams]: after the words [words], the
    list under a key is what was there before, followed by the words of
    [words] with that key. *)
Lemma get_anagrams_loop_lookup words : ∀ (d : gmap string (list string)) k,
  foldl get_anagrams_step d words !! k =
  match d !! k with
  | Some group => Some (group ++ group_of k words)
  | None => match group_of k words with [] => None | g => Some g end
  end.
Proof.
  induction words as [|w words IH]; intros d k; simpl.
  - destruct (d !! k); [rewrite app_nil_r|]; reflexivity.
  - rewrite IH, group_of_cons. unfold get_anagrams_step.
    destruct (decide (signature w = k)) as [->|Hne].
    + destruct (d !! k) as [group|] eqn:Hd; rewrite lookup_insert_eq.
      * rewrite <- app_assoc. reflexivity.
      * reflexivity.
    + destruct (d !! signature w); rewrite lookup_insert_ne by done; reflexivity.
Qed.

Lemma get_anagrams_lookup words k :
  get_anagrams words !! k =
  match group_of k words with [] => None | g => Some g end.
Proof. unfold get_anagrams. rewrite get_anagrams_loop_lookup, lookup_empty. done. Qed.

Lemma get_anagrams_lookup_Some words k group :
  get_anagrams words !! k = Some group ↔ group = group_of k words ∧ group ≠ [].
Proof.
  rewrite get_anagrams_lookup. destruct (group_of k words) as [|x g].
  - split; [done|]. by intros [-> ?].
  - split; [by intros [= <-]|]. by intros [-> _].
Qed.

Lemma get_anagrams_from_word_group words w :
  get_anagrams_from_word (get_anagrams words) w = group_of (signature w) words.
Proof.
  unfold get_anagrams_from_word. rewrite get_anagrams_lookup.
  destruct (group_of (signature w) words); reflexivity.
Qed.

(** C1: every word [W] of the collection given to [get_anagrams] is in
    the list that [get_anagrams_from_word] returns for [W] on the
    resulting index. *)
Theorem lookup_of_member_contains_it (words : list string) (W : string) :
  W ∈ words → W ∈ get_anagrams_from_word (get_anagrams words) W.
Proof.
  intros HW. rewrite get_anagrams_from_word_group.
  apply elem_of_group_of. done.
Qed.

Lemma lookup_of_member_contains_it_witness :
  "silent" ∈ ["listen"; "silent"] ∧
  "silent" ∈ get_anagrams_from_word (get_anagrams ["listen"; "silent"]) "silent".
Proof.
  assert ("silent" ∈ ["listen"; "silent"]) as Hin
    by (apply list_elem_of_In; simpl; auto).
  split; [exact Hin|].
  exact (lookup_of_member_contains_it ["listen"; "silent"] "silent" Hin).
Defined.

(** C2: [get_anagrams] puts every input word in a value list, the one
    under the word's own signature and no other, and every value list is
    the input restricted to the words of that key, in input order. *)
Theorem get_anagrams_partitions_input (words : list string) (W : string) :
  W ∈ words →
  (∃ group, get_anagrams words !! signature W = Some group ∧ W ∈ group) ∧
  (∀ k group, get_anagrams words !! k = Some group → W ∈ group → k = signature W) ∧
  (∀ k group, get_anagrams words !! k = Some group →
     group = filter (λ w, signature w = k) words).
Proof.
  intros HW. split; [|split].
  - exists (group_of (signature W) words).
    assert (W ∈ group_of (signature W) words) as Hin
      by (apply elem_of_group_of; done).
    split; [|done]. apply get_anagrams_lookup_Some. split; [done|].
    intros Hnil. rewrite Hnil in Hin. by apply not_elem_of_nil in Hin.
  - intros k group [-> _]%get_anagrams_lookup_Some [_ Hk]%elem_of_group_of. done.
  - intros k group [-> _]%get_anagrams_lookup_Some. reflexivity.
Qed.

Lemma get_anagrams_partitions_input_witness :
  let words := ["listen"; "google"; "silent"] in
  "silent" ∈ words ∧
  (∃ group, get_anagrams words !! signature "silent" = Some group ∧ "silent" ∈ group) ∧
  (∀ k group, get_anagrams words !! k = Some group → "silent" ∈ group →
     k = signature "silent") ∧
  (∀ k group, get_anagrams words !! k = Some group →
     group = filter (λ w, signature w = k) words).
Proof.
  assert ("silent" ∈ ["listen"; "google"; "silent"]) as Hin
    by (apply list_elem_of_In; simpl; auto).
  split; [exact Hin|].
  exact (get_anagrams_partitions_input ["listen"; "google"; "silent"] "silent" Hin).
Defined.

(** C3 (the code departs from it): the signature of a word of mixed case
    is not that of the word lowercased, because [get_anagrams] and
    [get_anagrams_from_word] lowercase after sorting: "Ba" has the key
    "ba", "ba" the key "ab", and the lookups differ. *)
Theorem signature_lowercases_after_sorting :
  signature "Ba" = "ba" ∧
  signature (PyStr.lower "Ba") = "ab" ∧
  get_anagrams_from_word (get_anagrams ["ab"; "ba"]) "Ba" = [] ∧
  get_anagrams_from_word (get_anagrams ["ab"; "ba"]) (PyStr.lower "Ba") = ["ab"; "ba"].
Proof. vm_compute. done. Qed.

(** C5 as stated fails: a query that is itself in the word set and has
    no anagram there gets the list holding the query, not an empty
    result. *)
Lemma lone_member_lookup_not_empty :
  no_other_member_shares ["google"; "listen"] "google" ∧
  get_anagrams_from_word (get_anagrams ["google"; "listen"]) "google" = ["google"].
Proof.
  split; [|vm_compute; reflexivity].
  intros x Hx Hne. apply list_elem_of_In in Hx. simpl in Hx.
  destruct Hx as [<-|[<-|[]]]; [done|]. vm_compute. discriminate.
Qed.

(** C5, amended: [get_anagrams_from_word] returns the list stored under
    the query's signature and the empty list when the index has no such
    key; on an index built by [get_anagrams] that list is every input
    word with the query's signature, the query included, and it is empty
    exactly when no member of the word set has that signature. *)
Theorem get_anagrams_from_word_total (anagram_dict : gmap string (list string))
    (words : list string) (word : string) :
  get_anagrams_from_word anagram_dict word
    = default [] (anagram_dict !! signature word) ∧
  get_anagrams_from_word (get_anagrams words) word
    = filter (λ w, signature w = signature word) words ∧
  (get_anagrams_from_word (get_anagrams words) word = [] ↔
   ∀ x, x ∈ words → signature x ≠ signature word).
Proof.
  split; [|split].
  - unfold get_anagrams_from_word. destruct (anagram_dict !! signature word); done.
  - apply get_anagrams_from_word_group.
  - rewrite get_anagrams_from_word_group. split.
    + intros Hnil x Hx Hsig.
      assert (x ∈ group_of (signature word) words) as Hin
        by (apply elem_of_group_of; done).
      rewrite Hnil in Hin. by apply not_elem_of_nil in Hin.
    + intros Hnone. destruct (group_of (signature word) words) as [|x g] eqn:Hg; [done|].
      assert (x ∈ group_of (signature word) words) as [Hx Hsig]%elem_of_group_of
        by (rewrite Hg; left).
      by destruct (Hnone x Hx).
Qed.

(** ** Substring search *)

Section find.
Import PyStr.

Lemma startswith_take s : ∀ sub,
  startswith s sub = true ↔ take (length sub) s = sub.
Proof.
  induction s as [|c s IH]; intros [|k sub]; simpl; [done..|].
  rewrite andb_true_iff, bool_decide_eq_true, IH.
  split; [intros [-> Heq]; by rewrite Heq | intros [= -> Heq]; done].
Qed.

Lemma startswith_nil s : startswith s [] = true.
Proof. by destruct s. Qed.

Lemma len_nonneg s : 0 ≤ len s.
Proof. unfold len. lia. Qed.

Lemma join_chars s : join (chars s) = s.
Proof. apply String.string_of_list_ascii_of_string. Qed.

Lemma chars_join l : chars (join l) = l.
Proof. apply String.list_ascii_of_string_of_list_ascii. Qed.

Lemma join_eq l s : join l = s ↔ l = chars s.
Proof.
  split; [intros <-; by rewrite chars_join | intros ->; apply join_chars].
Qed.

(** [find] from an offset inside the text scans the rest of the text. *)
Lemma find_inside text sub pre s :
  chars text = pre ++ s →
  find text sub (Z.of_nat (length pre)) = find_from (chars sub) s (Z.of_nat (length pre)).
Proof.
  intros Ht. unfold find, len. rewrite Ht, length_app.
  destruct (Z.ltb_spec (Z.of_nat (length pre)) 0) as [?|_]; [lia|].
  destruct (Z.ltb_spec (Z.of_nat (length pre + length s)%nat) (Z.of_nat (length pre)))
    as [?|_]; [lia|].
  rewrite Nat2Z.id, drop_app_length. reflexivity.
Qed.

Lemma find_beyond text sub n : len text < n → find text sub n = -1.
Proof.
  intros Hn. unfold find. pose proof (len_nonneg text).
  destruct (Z.ltb_spec n 0) as [?|_]; [lia|].
  destruct (Z.ltb_spec (len text) n) as [_|?]; [done|lia].
Qed.

Lemma hits_from_length sub s : ∀ n, (length (hits_from sub s n) ≤ S (length s))%nat.
Proof.
  induction s as [|c s IH]; intros n; cbn [hits_from]; rewrite length_app.
  - destruct (startswith [] sub); simpl; lia.
  - specialize (IH (n + 1)).
    destruct (startswith (c :: s) sub); simpl in *; lia.
Qed.

Lemma elem_of_hits_from sub s : ∀ n i,
  i ∈ hits_from sub s n ↔
  ∃ j : nat, (j ≤ length s)%nat ∧ i = n + Z.of_nat j ∧ startswith (drop j s) sub = true.
Proof.
  induction s as [|c s IH]; intros n i; cbn [hits_from].
  - rewrite app_nil_r. split.
    + destruct (startswith [] sub) eqn:Hs; [|by intros ?%not_elem_of_nil].
      intros ->%list_elem_of_singleton. exists 0%nat.
      split; [simpl; lia|]. split; [lia|done].
    + intros (j & Hj & -> & Hs). assert (j = 0%nat) as -> by (simpl in Hj; lia).
      rewrite drop_0 in Hs. rewrite Hs. apply list_elem_of_singleton. lia.
  - rewrite elem_of_app, IH. split.
    + intros [Hhd|(j & Hj & -> & Hs)].
      * destruct (startswith (c :: s) sub) eqn:Hs; [|by apply not_elem_of_nil in Hhd].
        apply list_elem_of_singleton in Hhd as ->. exists 0%nat.
        split; [simpl; lia|]. split; [lia|done].
      * exists (S j). split; [simpl; lia|]. split; [lia|done].
    + intros ([|j] & Hj & -> & Hs).
      * left. rewrite drop_0 in Hs. rewrite Hs. apply list_elem_of_singleton. lia.
      * right. exists j. split; [simpl in Hj; lia|]. split; [lia|done].
Qed.

Lemma hits_from_sorted sub s : ∀ n, StronglySorted Z.lt (hits_from sub s n).
Proof.
  induction s as [|c s IH]; intros n; cbn [hits_from].
  - rewrite app_nil_r. destruct (startswith [] sub); repeat constructor.
  - destruct (startswith (c :: s) sub); cbn [app]; [|apply IH].
    constructor; [apply IH|]. apply Forall_forall.
    intros i (j & _ & -> & _)%elem_of_hits_from. lia.
Qed.

Lemma hits_from_empty_keyword s : ∀ n,
  hits_from [] s n = (λ j : nat, n + Z.of_nat j) <$> seq 0 (S (length s)).
Proof.
  induction s as [|c s IH]; intros n.
  - simpl. f_equal. lia.
  - cbn [hits_from length]. rewrite startswith_nil, IH.
    cbn [seq fmap list_fmap app]. f_equal; [lia|].
    rewrite <- !fmap_S_seq, <- !list_fmap_compose. f_equal; [lia|].
    apply list_fmap_ext. intros _ j _. simpl. lia.
Qed.

(** The loop of [find_quotes], entered with the first hit at or after
    offset [n], appends the hits from [n] on and then leaves. *)
Lemma find_quotes_loop_hits text keyword s : ∀ pre fuel indices,
  chars text = pre ++ s →
  (length (hits_from (chars keyword) s (Z.of_nat (length pre))) < fuel)%nat →
  find_quotes_loop fuel text keyword
    (find_from (chars keyword) s (Z.of_nat (length pre))) indices
  = Some (indices ++ hits_from (chars keyword) s (Z.of_nat (length pre))).
Proof.
  induction s as [|c s IH]; intros pre fuel indices Ht Hfuel;
    cbn [find_from hits_from] in *.
  - rewrite app_nil_r in *.
    destruct (startswith [] (chars keyword)).
    + destruct fuel as [|[|fuel]]; [simpl in Hfuel; lia..|].
      cbn [find_quotes_loop]. rewrite bool_decide_eq_true_2 by lia.
      rewrite find_beyond, bool_decide_eq_false_2; [done|lia|].
      unfold len. rewrite Ht. lia.
    + destruct fuel as [|fuel]; [simpl in Hfuel; lia|].
      cbn [find_quotes_loop]. rewrite bool_decide_eq_false_2 by lia.
      by rewrite app_nil_r.
  - assert (chars text = (pre ++ [c]) ++ s) as Ht'
      by (by rewrite <- app_assoc).
    assert (Z.of_nat (length pre) + 1 = Z.of_nat (length (pre ++ [c]))) as Hn
      by (rewrite length_app; simpl; lia).
    destruct (startswith (c :: s) (chars keyword)); cbn [app] in *.
    + destruct fuel as [|fuel]; [simpl in Hfuel; lia|].
      cbn [length] in Hfuel. cbn [find_quotes_loop].
      rewrite bool_decide_eq_true_2 by lia.
      rewrite Hn in *. rewrite (find_inside _ _ _ _ Ht'), IH by (done || lia).
      rewrite <- app_assoc. reflexivity.
    + rewrite Hn in *. by apply IH.
Qed.

Lemma find_quotes_hits text keyword fuel :
  (length (chars text) + 2 ≤ fuel)%nat →
  find_quotes fuel text keyword = Some (hits_from (chars keyword) (chars text) 0).
Proof.
  intros Hfuel. unfold find_quotes.
  pose proof (find_inside text keyword [] (chars text) eq_refl) as Hfind.
  change (Z.of_nat (length (@nil ascii))) with 0 in Hfind. rewrite Hfind.
  pose proof (hits_from_length (chars keyword) (chars text) 0).
  apply (find_quotes_loop_hits text keyword (chars text) [] fuel []); [done|].
  change (Z.of_nat (length (@nil ascii))) with 0. lia.
Qed.

Lemma occurs_at_startswith text keyword i :
  occurs_at text keyword i ↔
  ∃ j : nat, (j ≤ length (chars text))%nat ∧ i = 0 + Z.of_nat j ∧
             startswith (drop j (chars text)) (chars keyword) = true.
Proof.
  unfold occurs_at.
  assert (∀ j : nat, (j ≤ length (chars text))%nat →
            slice text (Z.of_nat j) (Z.of_nat j + len keyword) = keyword ↔
            startswith (drop j (chars text)) (chars keyword) = true) as Hslice.
  { intros j Hj. unfold slice, clamp, len.
    destruct (Z.ltb_spec (Z.of_nat j) 0) as [?|_]; [lia|].
    destruct (Z.ltb_spec (Z.of_nat j + Z.of_nat (length (chars keyword))) 0)
      as [?|_]; [lia|].
    rewrite join_eq, startswith_take.
    replace (Z.to_nat (Z.max 0 (Z.min (Z.of_nat (length (chars text))) (Z.of_nat j))))
      with j by lia.
    replace (Z.to_nat _)
      with (min (length (chars keyword)) (length (drop j (chars text))))
      by (rewrite length_drop; lia).
    rewrite <- take_take, (take_ge (drop _ _) (length (drop _ _))) by done.
    done. }
  split.
  - intros [[Hlo Hhi] Hs]. exists (Z.to_nat i). unfold len in Hhi.
    split; [lia|]. split; [lia|]. apply Hslice; [lia|].
    by rewrite Z2Nat.id.
  - intros (j & Hj & -> & Hs). unfold len. split; [lia|].
    apply Hslice; done.
Qed.

Lemma elem_of_hits text keyword i :
  i ∈ hits_from (chars keyword) (chars text) 0 ↔ occurs_at text keyword i.
Proof. by rewrite elem_of_hits_from, occurs_at_startswith. Qed.

Lemma non_overlapping_sorted width offsets :
  0 < width → non_overlapping width offsets → StronglySorted Z.lt offsets.
Proof.
  intros Hw. induction offsets as [|i [|j rest] IH]; intros Hno.
  - constructor.
  - repeat constructor.
  - destruct Hno as [Hij Hrest]. specialize (IH Hrest).
    constructor; [done|]. apply StronglySorted_inv in IH as [_ Hall].
    constructor; [lia|]. eapply Forall_impl; [done|]. simpl. lia.
Qed.

Lemma ascending_same_elements (l1 l2 : list Z) :
  StronglySorted Z.lt l1 → StronglySorted Z.lt l2 →
  (∀ i, i ∈ l1 ↔ i ∈ l2) → l1 = l2.
Proof.
  intros H1 H2 Hel.
  assert (∀ l, StronglySorted Z.lt l → NoDup l) as Hnodup.
  { induction 1 as [|x l _ IH Hall]; constructor; [|done].
    intros Hx. rewrite Forall_forall in Hall. specialize (Hall x Hx). lia. }
  apply (StronglySorted_unique_strong Z.lt); [intros; lia|done..|].
  apply NoDup_Permutation; auto.
Qed.

End find.

Example find_quotes_overlapping : find_quotes 6 "aaaa" "aa" = Some [0; 1; 2].
Proof. vm_compute. reflexivity. Qed.

Example find_quotes_absent : find_quotes 8 "banana" "nab" = Some [].
Proof. vm_compute. reflexivity. Qed.

Example find_quotes_empty_keyword : find_quotes 5 "abc" "" = Some [0; 1; 2; 3].
Proof. vm_compute. reflexivity. Qed.

(** C4: for a non-empty keyword [find_quotes] leaves its loop and returns
    exactly the offsets at which the keyword occurs, overlapping ones
    included, in strictly ascending order: the empty list when there is
    no occurrence, and the [N] offsets themselves when the keyword occurs
    [N] times without overlap. *)
Theorem find_quotes_all_offsets (text keyword : string) (fuel : nat) :
  keyword ≠ "" →
  (length (PyStr.chars text) + 2 ≤ fuel)%nat →
  ∃ indices,
    find_quotes fuel text keyword = Some indices ∧
    (∀ i, i ∈ indices ↔ occurs_at text keyword i) ∧
    StronglySorted Z.lt indices ∧
    ((∀ i, ¬ occurs_at text keyword i) → indices = []) ∧
    (∀ (N : nat) offsets,
       length offsets = N →
       (∀ i, i ∈ offsets ↔ occurs_at text keyword i) →
       non_overlapping (PyStr.len keyword) offsets →
       indices = offsets ∧ length indices = N).
Proof.
  intros Hkw Hfuel. exists (hits_from (PyStr.chars keyword) (PyStr.chars text) 0).
  split; [by apply find_quotes_hits|].
  split; [apply elem_of_hits|].
  split; [apply hits_from_sorted|].
  split.
  - intros Hnone.
    destruct (hits_from (PyStr.chars keyword) (PyStr.chars text) 0) as [|i l] eqn:Hh; [done|].
    destruct (Hnone i). apply elem_of_hits. rewrite Hh. left.
  - intros N offsets HN Hocc Hno.
    assert (hits_from (PyStr.chars keyword) (PyStr.chars text) 0 = offsets) as ->; [|done].
    apply ascending_same_elements.
    + apply hits_from_sorted.
    + apply (non_overlapping_sorted (PyStr.len keyword)); [|done].
      destruct keyword; [done|]. unfold PyStr.len. simpl. lia.
    + intros i. by rewrite elem_of_hits, Hocc.
Qed.

Lemma find_quotes_all_offsets_witness :
  "ana" ≠ "" ∧ (length (PyStr.chars "banana") + 2 ≤ 8)%nat ∧
  ∃ indices,
    find_quotes 8 "banana" "ana" = Some indices ∧
    (∀ i, i ∈ indices ↔ occurs_at "banana" "ana" i) ∧
    StronglySorted Z.lt indices ∧
    ((∀ i, ¬ occurs_at "banana" "ana" i) → indices = []) ∧
    (∀ (N : nat) offsets,
       length offsets = N →
       (∀ i, i ∈ offsets ↔ occurs_at "banana" "ana" i) →
       non_overlapping (PyStr.len "ana") offsets →
       indices = offsets ∧ length indices = N).
Proof.
  assert ("ana" ≠ "") as Hkw by discriminate.
  assert (length (PyStr.chars "banana") + 2 ≤ 8)%nat as Hfuel by (simpl; lia).
  split; [exact Hkw|]. split; [exact Hfuel|].
  exact (find_quotes_all_offsets "banana" "ana" 8 Hkw Hfuel).
Defined.

(** C10: [find_quotes] leaves its loop for every text and keyword, the
    empty keyword included: two iterations more than the text has
    characters always suffice, the indices appended are strictly
    ascending, and for the empty keyword they are the offsets [0] to
    [len(text)]. *)
Theorem find_quotes_terminates (text keyword : string) (fuel : nat) :
  (length (PyStr.chars text) + 2 ≤ fuel)%nat →
  ∃ indices,
    find_quotes fuel text keyword = Some indices ∧
    StronglySorted Z.lt indices ∧
    (keyword = "" →
     indices = Z.of_nat <$> seq 0 (S (length (PyStr.chars text)))).
Proof.
  intros Hfuel. exists (hits_from (PyStr.chars keyword) (PyStr.chars text) 0).
  split; [by apply find_quotes_hits|].
  split; [apply hits_from_sorted|].
  intros ->. change (PyStr.chars "") with (@nil ascii).
  rewrite hits_from_empty_keyword. apply list_fmap_ext. intros _ j _. lia.
Qed.

Lemma find_quotes_terminates_witness :
  (length (PyStr.chars "abc") + 2 ≤ 5)%nat ∧
  ∃ indices,
    find_quotes 5 "abc" "" = Some indices ∧
    StronglySorted Z.lt indices ∧
    ("" = "" → indices = Z.of_nat <$> seq 0 (S (length (PyStr.chars "abc")))).
Proof.
  assert (length (PyStr.chars "abc") + 2 ≤ 5)%nat as Hfuel by (simpl; lia).
  split; [exact Hfuel|].
  exact (find_quotes_terminates "abc" "" 5 Hfuel).
Defined.


(** ** Word lists *)

Lemma isalpha_lower_char c :
  PyStr.isalpha_char c = true → PyStr.isalpha_char (PyStr.lower_char c) = true.
Proof. destruct c as [[] [] [] [] [] [] [] []]; vm_compute; congruence. Qed.

Lemma lower_char_idemp c :
  PyStr.lower_char (PyStr.lower_char c) = PyStr.lower_char c.
Proof. destruct c as [[] [] [] [] [] [] [] []]; vm_compute; reflexivity. Qed.

Lemma all_alpha_lower s :
  PyStr.all_alpha s = true → PyStr.all_alpha (PyStr.lower s) = true.
Proof.
  induction s as [|c s IH]; simpl; [done|].
  rewrite !andb_true_iff. intros [Hc Hs]. auto using isalpha_lower_char.
Qed.

Lemma isalpha_lower s :
  PyStr.isalpha s = true → PyStr.isalpha (PyStr.lower s) = true.
Proof. destruct s as [|c s]; [done|]. apply (all_alpha_lower (String c s)). Qed.

Lemma lower_idemp s : PyStr.lower (PyStr.lower s) = PyStr.lower s.
Proof.
  induction s as [|c s IH]; simpl; [done|]. by rewrite lower_char_idemp, IH.
Qed.

(** The filtering loop of [get_words] appends the lowercased alphabetic
    tokens. *)
Lemma elem_of_get_words_loop words : ∀ acc w,
  w ∈ foldl (λ filtered_words word,
               if PyStr.isalpha word then filtered_words ++ [PyStr.lower word]
               else filtered_words) acc words ↔
  w ∈ acc ∨ ∃ word, word ∈ words ∧ PyStr.isalpha word = true ∧ w = PyStr.lower word.
Proof.
  induction words as [|x words IH]; intros acc w; simpl.
  - split; [by left|]. intros [?|(word & []%not_elem_of_nil & _)]. done.
  - rewrite IH. destruct (PyStr.isalpha x) eqn:Hx.
    + rewrite elem_of_app, list_elem_of_singleton. split.
      * intros [[?| ->]|(word & ? & ? & ?)]; [by left| |].
        -- right. exists x. split; [left|done].
        -- right. exists word. split; [by right|done].
      * intros [?|(word & [-> |?]%elem_of_cons & ? & ?)];
          [by left; left|by left; right|].
        right. by exists word.
    + split.
      * intros [?|(word & ? & ? & ?)]; [by left|].
        right. exists word. split; [by right|done].
      * intros [?|(word & [-> |?]%elem_of_cons & ? & ?)]; [by left|congruence|].
        right. by exists word.
Qed.

Example get_words_sample :
  get_words "To be, or not to be: that is the Question. It's x2 (fine)"
  ≡ₚ ["to"; "be"; "or"; "not"; "that"; "is"; "the"; "question"; "its"; "fine"].
Proof. apply (bool_decide_unpack _). vm_compute. exact I. Qed.

Lemma get_words_lowercase corpus w : w ∈ get_words corpus → lowercase_word w.
Proof.
  unfold get_words. rewrite elem_of_elements, elem_of_list_to_set.
  rewrite elem_of_get_words_loop.
  intros [[]%not_elem_of_nil|(word & _ & Halpha & ->)].
  split; [by apply isalpha_lower|apply lower_idemp].
Qed.

(** The filter of [get_uk_english_word_list] keeps a word only if it is
    alphabetic and equal to its lowercased form. *)
Lemma elem_of_filter_words_loop words : ∀ acc w,
  w ∈ foldl (λ filtered_words word,
               if bool_decide (word ≠ PyStr.lower word) || negb (PyStr.isalpha word)
               then filtered_words
               else filtered_words ++ [word]) acc words →
  w ∈ acc ∨ (w ∈ words ∧ lowercase_word w).
Proof.
  induction words as [|x words IH]; intros acc w; simpl; [by left|].
  intros [Hacc|[Hw Hlow]]%IH; [|right; split; [by right|done]].
  destruct (bool_decide (x ≠ PyStr.lower x) || negb (PyStr.isalpha x)) eqn:Hx;
    [by left|].
  apply orb_false_iff in Hx as [Hlow%bool_decide_eq_false Halpha%negb_false_iff].
  apply elem_of_app in Hacc as [?| ->%list_elem_of_singleton]; [by left|].
  right. split; [left|]. split; [done|].
  destruct (decide (x = PyStr.lower x)); [congruence|done].
Qed.

Lemma filter_words_lowercase words w : w ∈ filter_words words → lowercase_word w.
Proof.
  intros [[]%not_elem_of_nil|[_ ?]]%elem_of_filter_words_loop. done.
Qed.

(** ** Acquisition *)

Ltac unfold_M :=
  unfold mbind, M_bind, mret, M_ret, raise, try_except, lift, print,
    os_path_exists, os_makedirs, read_file, write_file, request,
    urlretrieve, urlopen, response_read in *.

Lemma get_uk_english_word_list_filtered env directory w w' words :
  get_uk_english_word_list env directory w = (Ret (Some words), w') →
  ∃ raw, words = filter_words raw.
Proof.
  unfold get_uk_english_word_list. unfold_M. cbn beta iota. intros Hrun.
  repeat (case_match; simplify_eq; cbn beta iota in * ); eauto.
Qed.

Example get_uk_english_word_list_cached :
  get_uk_english_word_list offline "data" cached_dictionary
  = (Ret (Some ["a"; "ab"; "zebra"]),
     World (files cached_dictionary) (dirs cached_dictionary)
       ["Reading from cached file data/ukenglish.txt"] []).
Proof. vm_compute. reflexivity. Qed.

(** X26: for text over the code points U+0000..U+00FF, every member of
    the list returned by [get_words], of the list returned by
    [get_uk_english_word_list], and of their deduplicated union is
    alphabetic and equal to its lowercased form.  (Beyond this range
    [get_words] does not keep it: it tests [isalpha] before it
    lowercases, and the lowercase form of U+0130 ends in the combining
    mark U+0307, which is not alphabetic.) *)
Theorem word_lists_alphabetic_lowercase (env : environment)
    (corpus directory : string) (w0 w1 : world) (uk_word_list : list string) :
  get_uk_english_word_list env directory w0 = (Ret (Some uk_word_list), w1) →
  (∀ w, w ∈ get_words corpus → lowercase_word w) ∧
  (∀ w, w ∈ uk_word_list → lowercase_word w) ∧
  (∀ w, w ∈ all_words (get_words corpus) uk_word_list → lowercase_word w).
Proof.
  intros [raw ->]%get_uk_english_word_list_filtered.
  split; [|split].
  - apply get_words_lowercase.
  - apply filter_words_lowercase.
  - intros w. unfold all_words.
    rewrite elem_of_elements, elem_of_list_to_set, elem_of_app.
    intros [?|?]; eauto using get_words_lowercase, filter_words_lowercase.
Qed.

Lemma word_lists_alphabetic_lowercase_witness :
  let corpus := "To be, or not to be: that is the Question." in
  let w1 := World (files cached_dictionary) (dirs cached_dictionary)
              ["Reading from cached file data/ukenglish.txt"] [] in
  get_uk_english_word_list offline "data" cached_dictionary
    = (Ret (Some ["a"; "ab"; "zebra"]), w1) ∧
  (∀ w, w ∈ get_words corpus → lowercase_word w) ∧
  (∀ w, w ∈ ["a"; "ab"; "zebra"] → lowercase_word w) ∧
  (∀ w, w ∈ all_words (get_words corpus) ["a"; "ab"; "zebra"] → lowercase_word w).
Proof.
  assert (get_uk_english_word_list offline "data" cached_dictionary
          = (Ret (Some ["a"; "ab"; "zebra"]),
             World (files cached_dictionary) (dirs cached_dictionary)
               ["Reading from cached file data/ukenglish.txt"] [])) as Hrun
    by (vm_compute; reflexivity).
  split; [exact Hrun|].
  exact (word_lists_alphabetic_lowercase offline
           "To be, or not to be: that is the Question." "data"
           cached_dictionary _ _ Hrun).
Defined.

Lemma path_exists_of_file (w : world) path content :
  files w !! path = Some content →
  bool_decide (path ∈ dom (files w)) = true.
Proof. intros Hf. apply bool_decide_eq_true, elem_of_dom. eauto. Qed.

Example download_text_cached :
  download_text offline gutenberg_url "data" "complete_shakespeare.txt" cached_corpus
  = (Ret (Some "THE SONNETS"),
     World (files cached_corpus) (dirs cached_corpus)
       ["Reading from cached file data/complete_shakespeare.txt"] []).
Proof. vm_compute. reflexivity. Qed.

(** C9: when the target file is already in the destination directory,
    [download_text], [filter_text] and [get_uk_english_word_list] print
    that they read the cached file, return what it holds, request
    nothing over the network and leave every file as it was. *)
Theorem cached_file_is_read_not_fetched (env : environment) (w : world)
    (url text destination_directory filename content : string) :
  let filepath := os_path_join destination_directory filename in
  let reading := "Reading from cached file " +:+ filepath in
  files w !! filepath = Some content →
  (∃ w', download_text env url destination_directory filename w
           = (Ret (Some content), w') ∧
         files w' = files w ∧ fetched w' = fetched w ∧
         stdout w' = stdout w ++ [reading]) ∧
  (∃ w', filter_text text destination_directory filename w
           = (Ret (Some content), w') ∧
         files w' = files w ∧ fetched w' = fetched w ∧
         stdout w' = stdout w ++ [reading]) ∧
  (filename = "ukenglish.txt" →
   ∃ w', get_uk_english_word_list env destination_directory w
           = (Ret (Some (filter_words
                (PyStr.split_on PyStr.newline (decode_cp850 env content)))), w') ∧
         files w' = files w ∧ fetched w' = fetched w ∧
         stdout w' = stdout w ++ [reading]).
Proof.
  intros filepath reading Hfile.
  pose proof (path_exists_of_file w filepath content Hfile) as Hexists.
  split; [|split].
  - unfold download_text. unfold_M. fold filepath.
    destruct (negb _); cbn [files dirs stdout fetched];
      rewrite Hexists; cbn [orb negb files]; rewrite Hfile; eauto.
  - unfold filter_text. unfold_M. fold filepath.
    rewrite Hexists. cbn [orb files]. rewrite Hfile. eauto.
  - intros ->. unfold get_uk_english_word_list. unfold_M. fold filepath.
    rewrite Hexists. cbn [orb files]. rewrite Hfile. eauto.
Qed.

Lemma cached_file_is_read_not_fetched_witness :
  let w := cached_dictionary in
  let filepath := os_path_join "data" "ukenglish.txt" in
  let reading := "Reading from cached file " +:+ filepath in
  let content := "a
Aaron
ab
it's
zebra
" in
  files w !! filepath = Some content ∧
  (∃ w', download_text offline ukenglish_url "data" "ukenglish.txt" w
           = (Ret (Some content), w') ∧
         files w' = files w ∧ fetched w' = fetched w ∧
         stdout w' = stdout w ++ [reading]) ∧
  (∃ w', filter_text "no markers" "data" "ukenglish.txt" w
           = (Ret (Some content), w') ∧
         files w' = files w ∧ fetched w' = fetched w ∧
         stdout w' = stdout w ++ [reading]) ∧
  ("ukenglish.txt" = "ukenglish.txt" →
   ∃ w', get_uk_english_word_list offline "data" w
           = (Ret (Some (filter_words
                (PyStr.split_on PyStr.newline (decode_cp850 offline content)))), w') ∧
         files w' = files w ∧ fetched w' = fetched w ∧
         stdout w' = stdout w ++ [reading]).
Proof.
  assert (files cached_dictionary !! os_path_join "data" "ukenglish.txt"
          = Some "a
Aaron
ab
it's
zebra
") as Hfile by (vm_compute; reflexivity).
  split; [exact Hfile|].
  exact (cached_file_is_read_not_fetched offline cached_dictionary ukenglish_url
           "no markers" "data" "ukenglish.txt" _ Hfile).
Defined.

(** X25: what [get_uk_english_word_list] does when the file is not
    cached and [urlopen] fails: the call stands before the [try], so the
    exception leaves the function, nothing is printed and no file is
    written. *)
Lemma get_uk_english_word_list_urlopen_raises env directory w e :
  os_path_exists (os_path_join directory "ukenglish.txt") w = (Ret false, w) →
  urlopen_reply env ukenglish_url = inl e →
  get_uk_english_word_list env directory w
  = (Raise e, World (files w) (dirs w) (stdout w) (fetched w ++ [ukenglish_url])).
Proof.
  intros Hexists Hreply. unfold get_uk_english_word_list. unfold_M.
  injection Hexists as Hnone. rewrite Hnone, Hreply. reflexivity.
Qed.

(** C6 (the code departs from it): with no cached dictionary and the
    host unreachable, [urlopen] raises before the [try] of
    [get_uk_english_word_list] is entered; the error reaches the caller
    and no diagnostic is printed.  [download_text] on the same machine
    catches the error, prints the diagnostic and returns [None]. *)
Theorem urlopen_error_leaves_get_uk_english_word_list :
  get_uk_english_word_list offline "data" empty_world
  = (Raise (Exn URLError "<urlopen error [Errno -2] Name or service not known>"),
     World ∅ ∅ [] [ukenglish_url]) ∧
  download_text offline gutenberg_url "data" "gutenberg_complete_shakespeare_raw.txt"
    empty_world
  = (Ret None,
     World ∅ {["data"]}
       ["Failed to download https://www.gutenberg.org/cache/epub/100/pg100.txt to data/gutenberg_complete_shakespeare_raw.txt: <urlopen error [Errno -2] Name or service not known>"]
       [gutenberg_url]).
Proof. split; vm_compute; reflexivity. Qed.

Section filter_text.
Import PyStr.

Lemma find_from_range sub s : ∀ n,
  find_from sub s n = -1 ∨
  (n ≤ find_from sub s n ∧
   find_from sub s n - n + Z.of_nat (length sub) ≤ Z.of_nat (length s)).
Proof.
  induction s as [|c s IH]; intros n; cbn [find_from].
  - destruct (startswith [] sub) eqn:Hs; [|by left]. right.
    apply startswith_take in Hs. apply (f_equal length) in Hs.
    rewrite length_take in Hs. lia.
  - destruct (startswith (c :: s) sub) eqn:Hs.
    + right. apply startswith_take in Hs. apply (f_equal length) in Hs.
      rewrite length_take in Hs. lia.
    + destruct (IH (n + 1)) as [?|[? ?]]; [by left|]. right.
      cbn [length]. lia.
Qed.

Lemma find_range text sub :
  find text sub 0 = -1 ∨
  (0 ≤ find text sub 0 ∧ find text sub 0 + len sub ≤ len text).
Proof.
  pose proof (find_inside text sub [] (chars text) eq_refl) as Hfind.
  change (Z.of_nat (length (@nil ascii))) with 0 in Hfind. rewrite Hfind.
  destruct (find_from_range (chars sub) (chars text) 0) as [?|[? ?]]; [by left|].
  right. unfold len. lia.
Qed.

Lemma getitem_inside text pre c s :
  chars text = pre ++ c :: s →
  getitem text (Z.of_nat (length pre)) = Some c.
Proof.
  intros Ht. unfold getitem, len. rewrite Ht, length_app. cbn [length].
  assert ((Z.of_nat (length pre) <? 0) = false) as Hlo by (apply Z.ltb_ge; lia).
  rewrite !Hlo.
  assert ((Z.of_nat (length pre + S (length s)) <=? Z.of_nat (length pre)) = false)
    as Hhi by (apply Z.leb_gt; lia).
  rewrite Hhi. cbn [orb]. rewrite Nat2Z.id. by rewrite list_lookup_middle.
Qed.

(** The first loop of [filter_text] stops at the first character that is
    not a newline. *)
Lemma skip_newlines_returns text s : ∀ pre fuel,
  chars text = pre ++ s →
  (length s < fuel)%nat →
  (∃ c, c ∈ s ∧ c ≠ newline) →
  ∃ start, skip_newlines fuel text (Z.of_nat (length pre)) = Ret start.
Proof.
  induction s as [|c s IH]; intros pre fuel Ht Hfuel (x & Hx & Hnl).
  - by apply not_elem_of_nil in Hx.
  - destruct fuel as [|fuel]; [lia|]. cbn [skip_newlines].
    rewrite (getitem_inside text pre c s Ht).
    destruct (decide (c = newline)) as [->|Hc]; [|eauto].
    replace (Z.of_nat (length pre) + 1) with (Z.of_nat (length (pre ++ [newline])))
      by (rewrite length_app; simpl; lia).
    apply IH.
    + by rewrite <- app_assoc.
    + simpl in Hfuel. lia.
    + exists x. split; [|done]. by apply elem_of_cons in Hx as [->|?].
Qed.

(** Neither loop of [filter_text] can use up [loop_fuel]. *)
Lemma skip_newlines_leaves fuel : ∀ text start,
  0 ≤ start → len text - start < Z.of_nat fuel → (0 < fuel)%nat →
  skip_newlines fuel text start ≠ OutOfFuel.
Proof.
  induction fuel as [|fuel IH]; intros text start Hlo Hfuel Hpos; [lia|].
  cbn [skip_newlines]. destruct (getitem text start) as [c|] eqn:Hget; [|done].
  destruct (decide (c = newline)); [|done].
  unfold getitem in Hget.
  assert ((start <? 0) = false) as Hge by (apply Z.ltb_ge; lia).
  rewrite !Hge in Hget. cbn [orb] in Hget.
  destruct (Z.leb_spec (len text) start); [done|].
  apply IH; lia.
Qed.

Lemma strip_newlines_leaves fuel : ∀ text end_,
  0 ≤ end_ + len text < Z.of_nat fuel →
  strip_newlines fuel text end_ ≠ OutOfFuel.
Proof.
  induction fuel as [|fuel IH]; intros text end_ Hfuel; [lia|].
  cbn [strip_newlines].
  destruct (getitem text (end_ - 1)) as [c|] eqn:Hget; [|done].
  destruct (decide (c = newline)); [|done]. apply IH.
  unfold getitem in Hget. pose proof (len_nonneg text).
  destruct (Z.ltb_spec (end_ - 1) 0);
    [destruct (Z.ltb_spec (end_ - 1 + len text) 0); [done|lia]|lia].
Qed.

End filter_text.

(** X21: [filter_text] leaves both of its [while] loops for every text
    and every machine: neither can use up the iterations allotted, which
    grow with the length of the text. *)
Lemma filter_text_leaves_loops text destination_directory filename w :
  fst (filter_text text destination_directory filename w) ≠ OutOfFuel.
Proof.
  unfold filter_text. unfold_M.
  set (filepath := os_path_join destination_directory filename).
  destruct (bool_decide (filepath ∈ dom (files w)) || bool_decide (filepath ∈ dirs w));
    [cbn [files dirs]; by repeat case_match|].
  destruct (bool_decide (PyStr.find text start_tok 0 = -1)) eqn:Hstart; [done|].
  apply bool_decide_eq_false in Hstart.
  destruct (find_range text start_tok) as [?|[Hlo Hhi]]; [done|].
  pose proof (skip_newlines_leaves (loop_fuel text) text
                (PyStr.find text start_tok 0 + PyStr.len start_tok)) as Hskip.
  destruct (skip_newlines _ _ _) as [start| |].
  - destruct (bool_decide (PyStr.find text end_tok 0 = -1)) eqn:Hend; [done|].
    apply bool_decide_eq_false in Hend.
    destruct (find_range text end_tok) as [?|[Hlo' Hhi']]; [done|].
    pose proof (strip_newlines_leaves (loop_fuel text) text
                  (PyStr.find text end_tok 0)) as Hstrip.
    destruct (strip_newlines _ _ _); [done..|]. destruct Hstrip; [|done].
    pose proof (len_nonneg end_tok). unfold loop_fuel, PyStr.len in *. lia.
  - done.
  - destruct Hskip; [| | |done].
    + pose proof (len_nonneg start_tok). lia.
    + unfold loop_fuel, PyStr.len in *. lia.
    + unfold loop_fuel. lia.
Qed.

Example filter_text_well_formed :
  filter_text "The Project Gutenberg eBook of THE COMPLETE WORKS OF WILLIAM SHAKESPEARE ***


THE SONNETS

*** END OF THE PROJECT GUTENBERG EBOOK 100 ***" "data" "complete_shakespeare.txt"
    data_dir_world
  = (Ret (Some "THE SONNETS"),
     World {["data/complete_shakespeare.txt" := "THE SONNETS"]} {["data"]} [] []).
Proof. vm_compute. reflexivity. Qed.

(** The unguarded index of the first loop: a text that ends with the
    start marker raises [IndexError] before the end marker is looked
    for. *)
Example filter_text_index_error :
  PyStr.find "THE COMPLETE WORKS OF WILLIAM SHAKESPEARE ***" end_tok 0 = -1 ∧
  filter_text "THE COMPLETE WORKS OF WILLIAM SHAKESPEARE ***" "data"
    "complete_shakespeare.txt" empty_world
  = (Raise (Exn IndexError "string index out of range"), empty_world).
Proof. split; vm_compute; reflexivity. Qed.

(** C7 as stated fails: when the filtered file is cached, [filter_text]
    returns the cached content without looking at the text, so a text
    with neither marker is neither detected nor reported. *)
Lemma filter_text_cached_ignores_markers :
  PyStr.find "no markers in here" start_tok 0 = -1 ∧
  PyStr.find "no markers in here" end_tok 0 = -1 ∧
  filter_text "no markers in here" "data" "complete_shakespeare.txt" cached_corpus
  = (Ret (Some "THE SONNETS"),
     World (files cached_corpus) (dirs cached_corpus)
       ["Reading from cached file data/complete_shakespeare.txt"] []).
Proof. repeat split; vm_compute; reflexivity. Qed.

(** C7, amended: when the filtered file is not cached and the text lacks
    the start marker, or lacks the end marker while some character other
    than a newline follows the start marker, [filter_text] prints
    "Unexpected text format" and returns [None]; nothing is raised, no
    file is written and nothing is fetched. *)
Theorem filter_text_reports_missing_marker
    (text destination_directory filename : string) (w : world) :
  let filepath := os_path_join destination_directory filename in
  let start := PyStr.find text start_tok 0 in
  os_path_exists filepath w = (Ret false, w) →
  start = -1 ∨
  (PyStr.find text end_tok 0 = -1 ∧
   ∃ c, c ∈ drop (Z.to_nat (start + PyStr.len start_tok)) (PyStr.chars text) ∧
        c ≠ PyStr.newline) →
  filter_text text destination_directory filename w
  = (Ret None,
     World (files w) (dirs w) (stdout w ++ ["Unexpected text format"]) (fetched w)).
Proof.
  intros filepath start Hexists Hmissing.
  unfold filter_text. fold filepath. unfold_M.
  injection Hexists as Hnone. rewrite Hnone. fold start.
  destruct (bool_decide (start = -1)) eqn:Hstart; [done|].
  apply bool_decide_eq_false in Hstart.
  destruct Hmissing as [?|[Hend Hrest]]; [done|].
  destruct (find_range text start_tok) as [?|[Hlo Hhi]]; [done|]. fold start in Hlo, Hhi.
  pose proof (len_nonneg start_tok) as Htok.
  set (k := Z.to_nat (start + PyStr.len start_tok)) in *.
  assert (k ≤ length (PyStr.chars text))%nat as Hk by (unfold PyStr.len in *; lia).
  destruct (skip_newlines_returns text (drop k (PyStr.chars text))
              (take k (PyStr.chars text)) (loop_fuel text)) as [start' Hskip].
  - by rewrite take_drop.
  - rewrite length_drop. unfold loop_fuel. lia.
  - done.
  - rewrite length_take, Nat.min_l in Hskip by done.
    replace (Z.of_nat k) with (start + PyStr.len start_tok) in Hskip by lia.
    rewrite Hskip, Hend. reflexivity.
Qed.

Lemma filter_text_reports_missing_marker_witness :
  let text := "THE COMPLETE WORKS OF WILLIAM SHAKESPEARE ***

THE SONNETS" in
  let filepath := os_path_join "data" "complete_shakespeare.txt" in
  let start := PyStr.find text start_tok 0 in
  os_path_exists filepath empty_world = (Ret false, empty_world) ∧
  (start = -1 ∨
   (PyStr.find text end_tok 0 = -1 ∧
    ∃ c, c ∈ drop (Z.to_nat (start + PyStr.len start_tok)) (PyStr.chars text) ∧
         c ≠ PyStr.newline)) ∧
  filter_text text "data" "complete_shakespeare.txt" empty_world
  = (Ret None,
     World (files empty_world) (dirs empty_world)
       (stdout empty_world ++ ["Unexpected text format"]) (fetched empty_world)).
Proof.
  assert (os_path_exists (os_path_join "data" "complete_shakespeare.txt") empty_world
          = (Ret false, empty_world)) as Hexists by (vm_compute; reflexivity).
  assert (let text := "THE COMPLETE WORKS OF WILLIAM SHAKESPEARE ***

THE SONNETS" in
          let start := PyStr.find text start_tok 0 in
          start = -1 ∨
          (PyStr.find text end_tok 0 = -1 ∧
           ∃ c, c ∈ drop (Z.to_nat (start + PyStr.len start_tok)) (PyStr.chars text) ∧
                c ≠ PyStr.newline)) as Hmissing.
  { right. split; [vm_compute; reflexivity|]. exists "T"%char.
    split; [|discriminate]. vm_compute. do 2 right. left. }
  split; [exact Hexists|]. split; [exact Hmissing|].
  exact (filter_text_reports_missing_marker _ "data" "complete_shakespeare.txt"
           empty_world Hexists Hmissing).
Defined.

(** * Further properties of the notebook's functions *)

(** ** Anagram index *)

Section signature_facts.
Import PyStr.

#[local] Instance ord_le_trans : Transitive ord_le.
Proof. intros a b c. unfold ord_le. lia. Qed.

#[local] Instance ord_le_total : Total ord_le.
Proof. intros a b. unfold ord_le. lia. Qed.

#[local] Instance ord_le_antisymm : AntiSymm (=) ord_le.
Proof.
  intros a b Hab Hba. unfold ord_le, ord in *.
  rewrite <- (ascii_N_embedding a), <- (ascii_N_embedding b). f_equal. lia.
Qed.

Lemma sorted_of_permutation l1 l2 :
  l1 ≡ₚ l2 → merge_sort ord_le l1 = merge_sort ord_le l2.
Proof.
  intros Hp. apply (Sorted_unique ord_le); [apply Sorted_merge_sort; apply _..|].
  by rewrite !merge_sort_Permutation.
Qed.

Lemma lower_join l : lower (join l) = join (lower_char <$> l).
Proof.
  induction l as [|c l IH]; [done|].
  change (join (c :: l)) with (String c (join l)). cbn [lower]. by rewrite IH.
Qed.

Lemma chars_lower s : chars (lower s) = lower_char <$> chars s.
Proof.
  induction s as [|c s IH]; [done|].
  cbn [lower]. change (chars (String ?a ?b)) with (a :: chars b). by rewrite IH.
Qed.

Lemma lower_fixed_chars s :
  lower s = s ↔ Forall (λ c, lower_char c = c) (chars s).
Proof.
  induction s as [|c s IH]; cbn; [by split; [constructor|]|].
  rewrite Forall_cons, <- IH. split; [by intros [= -> ->]|by intros [-> ->]].
Qed.

Lemma signature_of_lowercase s : lower s = s → signature s = join (sorted s).
Proof.
  intros Hs%lower_fixed_chars. unfold signature. rewrite lower_join. f_equal.
  assert (Forall (λ c, lower_char c = c) (sorted s)) as Hfix.
  { unfold sorted. by rewrite merge_sort_Permutation. }
  induction Hfix as [|c l Hc _ IH]; [done|]. cbn. by rewrite Hc, IH.
Qed.

Lemma ord_lower_upper c :
  isupper_char c = true → ord (lower_char c) = (ord c + 32)%N.
Proof.
  intros Hc. unfold lower_char. rewrite Hc. unfold ord.
  apply N_ascii_embedding. unfold isupper_char, in_range, ord in Hc.
  repeat (apply orb_true_iff in Hc as [Hc|Hc]);
    apply andb_true_iff in Hc as [_ Hc%N.leb_le]; lia.
Qed.

Lemma fmap_strongly_sorted {A B} (R : relation A) (R' : relation B) (f : A → B) l :
  (∀ x y, x ∈ l → y ∈ l → R x y → R' (f x) (f y)) →
  StronglySorted R l → StronglySorted R' (f <$> l).
Proof.
  intros Hmono Hl. induction Hl as [|x l Hl IH Hx]; [constructor|].
  cbn. constructor.
  - apply IH. intros a b Ha Hb. apply Hmono; by right.
  - rewrite Forall_fmap. rewrite Forall_forall in Hx. apply Forall_forall.
    intros y Hy. apply Hmono; [left|by right|by apply Hx].
Qed.

Lemma sorted_lower_upper w :
  Forall (λ c, isupper_char c = true) (chars w) →
  sorted (lower w) = lower_char <$> sorted w.
Proof.
  intros Hup. unfold sorted. rewrite chars_lower.
  apply (Sorted_unique ord_le).
  - apply Sorted_merge_sort; apply _.
  - apply StronglySorted_Sorted.
    apply (fmap_strongly_sorted ord_le ord_le).
    + intros a b Ha Hb Hab. rewrite merge_sort_Permutation in Ha, Hb.
      rewrite Forall_forall in Hup. unfold ord_le in *.
      rewrite !ord_lower_upper by auto. lia.
    + apply StronglySorted_merge_sort; apply _.
  - by rewrite !merge_sort_Permutation.
Qed.

End signature_facts.

(** X1: two words made of the same characters, each the same number of
    times, have the same signature, so either one looks up the other's
    list in any index. *)
Theorem anagrams_share_signature (w1 w2 : string)
    (anagram_dict : gmap string (list string)) :
  PyStr.chars w1 ≡ₚ PyStr.chars w2 →
  signature w1 = signature w2 ∧
  get_anagrams_from_word anagram_dict w1 = get_anagrams_from_word anagram_dict w2.
Proof.
  intros Hp.
  assert (signature w1 = signature w2) as Hsig.
  { unfold signature, PyStr.sorted. by rewrite (sorted_of_permutation _ _ Hp). }
  split; [done|]. unfold get_anagrams_from_word. by rewrite Hsig.
Qed.

Lemma anagrams_share_signature_witness :
  PyStr.chars "listen" ≡ₚ PyStr.chars "silent" ∧
  signature "listen" = signature "silent" ∧
  get_anagrams_from_word (get_anagrams ["enlist"]) "listen"
  = get_anagrams_from_word (get_anagrams ["enlist"]) "silent".
Proof.
  assert (PyStr.chars "listen" ≡ₚ PyStr.chars "silent") as Hp
    by (apply (bool_decide_unpack _); vm_compute; exact I).
  split; [exact Hp|].
  exact (anagrams_share_signature "listen" "silent" (get_anagrams ["enlist"]) Hp).
Defined.

(** X2: over a word set without upper-case letters, the lookup of a
    query without upper-case letters returns all and only the members
    that are letter permutations of the query. *)
Theorem lookup_returns_letter_permutations (words : list string) (word w : string) :
  PyStr.lower word = word →
  (∀ x, x ∈ words → PyStr.lower x = x) →
  w ∈ get_anagrams_from_word (get_anagrams words) word ↔
  w ∈ words ∧ PyStr.chars w ≡ₚ PyStr.chars word.
Proof.
  intros Hword Hwords. rewrite get_anagrams_from_word_group, elem_of_group_of.
  split; intros [Hw Hrel]; (split; [done|]).
  - rewrite !signature_of_lowercase in Hrel by auto.
    apply (f_equal PyStr.chars) in Hrel. rewrite !chars_join in Hrel.
    unfold PyStr.sorted in Hrel.
    rewrite <- (merge_sort_Permutation PyStr.ord_le (PyStr.chars w)), Hrel.
    apply merge_sort_Permutation.
  - unfold signature, PyStr.sorted. by rewrite (sorted_of_permutation _ _ Hrel).
Qed.

Lemma lookup_returns_letter_permutations_witness :
  let words := ["listen"; "google"; "silent"] in
  PyStr.lower "enlist" = "enlist" ∧
  (∀ x, x ∈ words → PyStr.lower x = x) ∧
  ("silent" ∈ get_anagrams_from_word (get_anagrams words) "enlist" ↔
   "silent" ∈ words ∧ PyStr.chars "silent" ≡ₚ PyStr.chars "enlist").
Proof.
  assert (PyStr.lower "enlist" = "enlist") as Hword by reflexivity.
  assert (∀ x, x ∈ ["listen"; "google"; "silent"] → PyStr.lower x = x) as Hwords.
  { intros x Hx. apply list_elem_of_In in Hx. simpl in Hx.
    destruct Hx as [<-|[<-|[<-|[]]]]; reflexivity. }
  split; [exact Hword|]. split; [exact Hwords|].
  exact (lookup_returns_letter_permutations ["listen"; "google"; "silent"]
           "enlist" "silent" Hword Hwords).
Defined.

(** X3: a word written entirely in the upper-case letters of
    U+0000..U+00FF (A to Z, U+00C0..U+00D6, U+00D8..U+00DE) has the
    signature of the word lowercased, so a query in such capitals finds
    the lowercase entries: lowercasing moves each of these letters up by
    32 code points and so keeps their order. *)
Theorem capitals_query_matches_lowercase (word : string)
    (anagram_dict : gmap string (list string)) :
  Forall (λ c, PyStr.isupper_char c = true) (PyStr.chars word) →
  signature word = signature (PyStr.lower word) ∧
  get_anagrams_from_word anagram_dict word
  = get_anagrams_from_word anagram_dict (PyStr.lower word).
Proof.
  intros Hup.
  assert (signature word = signature (PyStr.lower word)) as Hsig.
  { unfold signature. rewrite (sorted_lower_upper word Hup), !lower_join.
    f_equal. rewrite <- list_fmap_compose. apply list_fmap_ext.
    intros _ c _. simpl. by rewrite lower_char_idemp. }
  split; [done|]. unfold get_anagrams_from_word. by rewrite <- Hsig.
Qed.

Lemma capitals_query_matches_lowercase_witness :
  Forall (λ c, PyStr.isupper_char c = true) (PyStr.chars "IPSMTO") ∧
  signature "IPSMTO" = signature (PyStr.lower "IPSMTO") ∧
  get_anagrams_from_word (get_anagrams ["impost"]) "IPSMTO"
  = get_anagrams_from_word (get_anagrams ["impost"]) (PyStr.lower "IPSMTO").
Proof.
  assert (Forall (λ c, PyStr.isupper_char c = true) (PyStr.chars "IPSMTO")) as Hup
    by (repeat constructor).
  split; [exact Hup|].
  exact (capitals_query_matches_lowercase "IPSMTO" (get_anagrams ["impost"]) Hup).
Defined.

(** X4: the keys of the index built by [get_anagrams] are exactly the
    signatures of the input words, and no key holds an empty list. *)
Theorem get_anagrams_keys (words : list string) (k : string) :
  (k ∈ dom (get_anagrams words) ↔ ∃ w, w ∈ words ∧ signature w = k) ∧
  (∀ group, get_anagrams words !! k = Some group → group ≠ []).
Proof.
  split.
  - rewrite elem_of_dom, get_anagrams_lookup. split.
    + intros [g Hg]. destruct (group_of k words) as [|w g'] eqn:Hgroup; [done|].
      exists w. apply elem_of_group_of. rewrite Hgroup. left.
    + intros (w & Hw & Hk).
      assert (w ∈ group_of k words) as Hin by (by apply elem_of_group_of).
      destruct (group_of k words); [by apply not_elem_of_nil in Hin|eauto].
  - by intros group [_ ?]%get_anagrams_lookup_Some.
Qed.

Lemma index_size_step (d : gmap string (list string)) word :
  index_size (get_anagrams_step d word) = S (index_size d).
Proof.
  unfold get_anagrams_step, index_size.
  destruct (d !! signature word) as [group|] eqn:Hd.
  - rewrite <- insert_delete_eq.
    rewrite map_fold_insert_L; [|intros; lia|apply lookup_delete_eq].
    rewrite (map_fold_delete_L _ _ (signature word) group d); [|intros; lia|done].
    rewrite length_app. simpl. lia.
  - rewrite map_fold_insert_L; [|intros; lia|done]. simpl. lia.
Qed.

Lemma index_size_loop words : ∀ d,
  index_size (foldl get_anagrams_step d words) = (index_size d + length words)%nat.
Proof.
  induction words as [|w words IH]; intros d; simpl; [lia|].
  rewrite IH, index_size_step. lia.
Qed.

(** X5: the lists of the index hold as many words as the input has: each
    input word, repeated ones included, is stored once. *)
Theorem get_anagrams_stores_every_word_once (words : list string) :
  index_size (get_anagrams words) = length words.
Proof.
  unfold get_anagrams. rewrite index_size_loop.
  unfold index_size. by rewrite map_fold_empty.
Qed.

(** X6: every word in the list returned for a query looks up that same
    list: the groups of the index are closed under lookup. *)
Theorem lookup_of_group_member_is_the_group (words : list string) (word w : string) :
  w ∈ get_anagrams_from_word (get_anagrams words) word →
  get_anagrams_from_word (get_anagrams words) w
  = get_anagrams_from_word (get_anagrams words) word.
Proof.
  rewrite !get_anagrams_from_word_group.
  intros [_ Hsig]%elem_of_group_of. by rewrite Hsig.
Qed.

Lemma lookup_of_group_member_is_the_group_witness :
  let words := ["listen"; "google"; "silent"] in
  "silent" ∈ get_anagrams_from_word (get_anagrams words) "enlist" ∧
  get_anagrams_from_word (get_anagrams words) "silent"
  = get_anagrams_from_word (get_anagrams words) "enlist".
Proof.
  assert ("silent" ∈ get_anagrams_from_word
            (get_anagrams ["listen"; "google"; "silent"]) "enlist") as Hin.
  { apply list_elem_of_In. vm_compute. auto. }
  split; [exact Hin|].
  exact (lookup_of_group_member_is_the_group ["listen"; "google"; "silent"]
           "enlist" "silent" Hin).
Defined.

(** X7: when the input has no repeated word, as the deduplicated word
    set of the notebook, no list of the index repeats a word. *)
Theorem groups_of_distinct_words_are_distinct (words : list string) (word : string) :
  NoDup words → NoDup (get_anagrams_from_word (get_anagrams words) word).
Proof.
  intros Hnd. rewrite get_anagrams_from_word_group. by apply NoDup_filter.
Qed.

Lemma groups_of_distinct_words_are_distinct_witness :
  NoDup ["listen"; "google"; "silent"] ∧
  NoDup (get_anagrams_from_word (get_anagrams ["listen"; "google"; "silent"]) "enlist").
Proof.
  assert (NoDup ["listen"; "google"; "silent"]) as Hnd
    by (apply (bool_decide_unpack _); vm_compute; exact I).
  split; [exact Hnd|].
  exact (groups_of_distinct_words_are_distinct ["listen"; "google"; "silent"]
           "enlist" Hnd).
Defined.

(** X8: indexing a concatenation of two word lists gives, for every
    query, the list from the first followed by the list from the
    second. *)
Theorem lookup_in_index_of_concatenation (words1 words2 : list string) (word : string) :
  get_anagrams_from_word (get_anagrams (words1 ++ words2)) word
  = get_anagrams_from_word (get_anagrams words1) word
    ++ get_anagrams_from_word (get_anagrams words2) word.
Proof.
  rewrite !get_anagrams_from_word_group. unfold group_of. apply filter_app.
Qed.

(** ** Substring search and the context printer *)

(** A run of the loop that has left it is not changed by more fuel. *)
Lemma find_quotes_loop_more_fuel text keyword fuel : ∀ fuel' i indices result,
  find_quotes_loop fuel text keyword i indices = Some result →
  (fuel ≤ fuel')%nat →
  find_quotes_loop fuel' text keyword i indices = Some result.
Proof.
  induction fuel as [|fuel IH]; intros fuel' i indices result Hrun Hle; [done|].
  destruct fuel' as [|fuel']; [lia|]. cbn [find_quotes_loop] in *.
  destruct (bool_decide (i ≠ -1)); [|done]. apply IH; [done|lia].
Qed.

Lemma find_quotes_returns_hits text keyword fuel indices :
  find_quotes fuel text keyword = Some indices →
  indices = hits_from (PyStr.chars keyword) (PyStr.chars text) 0.
Proof.
  intros Hrun.
  pose proof (find_quotes_hits text keyword (fuel + (length (PyStr.chars text) + 2))
                ltac:(lia)) as Hhits.
  unfold find_quotes in *.
  rewrite (find_quotes_loop_more_fuel _ _ _ _ _ _ _ Hrun) in Hhits by lia.
  congruence.
Qed.

Lemma startswith_length s sub :
  PyStr.startswith s sub = true → (length sub ≤ length s)%nat.
Proof.
  intros Hs%startswith_take. apply (f_equal length) in Hs.
  rewrite length_take in Hs. lia.
Qed.

(** X9: whatever [find_quotes] returns lies inside the text: every
    offset leaves room for the keyword before the end of the text, and
    there are at most [len(text) + 1] offsets. *)
Theorem find_quotes_offsets_in_bounds (text keyword : string) (fuel : nat)
    (indices : list Z) :
  find_quotes fuel text keyword = Some indices →
  (∀ i, i ∈ indices → 0 ≤ i ∧ i + PyStr.len keyword ≤ PyStr.len text) ∧
  (length indices ≤ length (PyStr.chars text) + 1)%nat.
Proof.
  intros ->%find_quotes_returns_hits. split.
  - intros i (j & Hj & -> & Hs%startswith_length)%elem_of_hits_from.
    rewrite length_drop in Hs. unfold PyStr.len. lia.
  - pose proof (hits_from_length (PyStr.chars keyword) (PyStr.chars text) 0). lia.
Qed.

Lemma find_quotes_offsets_in_bounds_witness :
  find_quotes 8 "banana" "ana" = Some [1; 3] ∧
  (∀ i, i ∈ [1; 3] → 0 ≤ i ∧ i + PyStr.len "ana" ≤ PyStr.len "banana") ∧
  (length [1; 3] ≤ length (PyStr.chars "banana") + 1)%nat.
Proof.
  assert (find_quotes 8 "banana" "ana" = Some [1; 3]) as Hrun
    by (vm_compute; reflexivity).
  split; [exact Hrun|].
  exact (find_quotes_offsets_in_bounds "banana" "ana" 8 [1; 3] Hrun).
Defined.

Lemma print_quotes_loop text pre post indices : ∀ (done_so_far : M ()) w w0,
  done_so_far w = (Ret (), w0) →
  foldl (λ (done_so_far : M ()) i,
           _ ← done_so_far;
           _ ← print (PyStr.slice text (i - pre) (i + post));
           print "------") done_so_far indices w
  = (Ret (), World (files w0) (dirs w0)
               (stdout w0 ++ quote_lines text indices pre post) (fetched w0)).
Proof.
  induction indices as [|i indices IH]; intros k w w0 Hk.
  - simpl. rewrite Hk. unfold quote_lines. simpl. rewrite app_nil_r.
    by destruct w0.
  - cbn [foldl].
    rewrite (IH _ w (World (files w0) (dirs w0)
                       ((stdout w0 ++ [PyStr.slice text (i - pre) (i + post)])
                        ++ ["------"]) (fetched w0))).
    + cbn [files dirs stdout fetched]. unfold quote_lines.
      rewrite bind_cons. by rewrite <- !app_assoc.
    + unfold_M. by rewrite Hk.
Qed.

(** X10: [print_quotes] never raises, whatever the offsets (negative or
    beyond the text included): for each offset in turn it prints the
    slice [text[i-pre:i+post]] and the separator line, and it touches no
    file and requests nothing. *)
Theorem print_quotes_prints_each_window (text : string) (indices : list Z)
    (pre post : Z) (w : world) :
  print_quotes text indices pre post w
  = (Ret (), World (files w) (dirs w)
               (stdout w ++ quote_lines text indices pre post) (fetched w)).
Proof. unfold print_quotes. by apply print_quotes_loop. Qed.

Section windows.
Import PyStr.

Lemma chars_slice s a b :
  0 ≤ a ≤ len s → 0 ≤ b →
  chars (slice s a b) = take (Z.to_nat (b - a)) (drop (Z.to_nat a) (chars s)).
Proof.
  intros Ha Hb. unfold slice, clamp. rewrite chars_join.
  assert ((a <? 0) = false) as -> by (apply Z.ltb_ge; lia).
  assert ((b <? 0) = false) as -> by (apply Z.ltb_ge; lia).
  replace (Z.max 0 (Z.min (len s) a)) with a by lia.
  destruct (Z.le_gt_cases b (len s)).
  - by replace (Z.max 0 (Z.min (len s) b)) with b by lia.
  - replace (Z.max 0 (Z.min (len s) b)) with (len s) by lia.
    rewrite !take_ge; [done|rewrite length_drop; unfold len in *; lia..].
Qed.

Lemma chars_inj s1 s2 : chars s1 = chars s2 → s1 = s2.
Proof. intros Heq. by rewrite <- (join_chars s1), Heq, join_chars. Qed.

Lemma occurs_at_take text keyword i :
  occurs_at text keyword i →
  take (length (chars keyword)) (drop (Z.to_nat i) (chars text)) = chars keyword.
Proof.
  intros (j & _ & -> & Hs)%occurs_at_startswith.
  apply startswith_take in Hs. by replace (Z.to_nat (0 + Z.of_nat j)) with j by lia.
Qed.

End windows.

(** X11: for a hit closer to the start of the text than [pre], the
    start of the slice is negative and counts from the end of the text:
    when the text is at least [pre + post] long the printed window is
    empty. *)
Theorem window_of_early_hit_is_empty (text : string) (i pre post : Z) :
  0 ≤ i < pre → 0 ≤ post → pre + post ≤ PyStr.len text →
  PyStr.slice text (i - pre) (i + post) = "".
Proof.
  intros Hi Hpost Hlen. unfold PyStr.slice, PyStr.clamp.
  assert ((i - pre <? 0) = true) as -> by (apply Z.ltb_lt; lia).
  assert ((i + post <? 0) = false) as -> by (apply Z.ltb_ge; lia).
  replace (Z.to_nat _) with 0%nat by lia. done.
Qed.

Lemma window_of_early_hit_is_empty_witness :
  0 ≤ 1 < 3 ∧ 0 ≤ 3 ∧ 3 + 3 ≤ PyStr.len "banana" ∧
  PyStr.slice "banana" (1 - 3) (1 + 3) = "".
Proof.
  assert (0 ≤ 1 < 3) as Hi by lia.
  assert (0 ≤ 3) as Hpost by lia.
  assert (3 + 3 ≤ PyStr.len "banana") as Hlen by (vm_compute; discriminate).
  split; [exact Hi|]. split; [exact Hpost|]. split; [exact Hlen|].
  exact (window_of_early_hit_is_empty "banana" 1 3 3 Hi Hpost Hlen).
Defined.

(** X12: for a hit at least [pre] characters into the text and a [post]
    no shorter than the keyword, the printed window shows the keyword at
    offset [pre], after the [pre] characters that precede the hit. *)
Theorem window_shows_keyword (text keyword : string) (i pre post : Z) :
  occurs_at text keyword i →
  0 ≤ pre ≤ i → PyStr.len keyword ≤ post →
  let window := PyStr.slice text (i - pre) (i + post) in
  PyStr.slice window pre (pre + PyStr.len keyword) = keyword ∧
  PyStr.slice window 0 pre = PyStr.slice text (i - pre) i.
Proof.
  intros Hocc Hpre Hpost window.
  pose proof (occurs_at_take text keyword i Hocc) as Htake.
  pose proof (startswith_length (drop (Z.to_nat i) (PyStr.chars text)) (PyStr.chars keyword))
    as Hroom.
  rewrite startswith_take in Hroom. specialize (Hroom Htake).
  rewrite length_drop in Hroom.
  destruct Hocc as [[Hlo Hhi] _]. pose proof (len_nonneg keyword) as Hkw.
  assert (PyStr.chars window
          = take (Z.to_nat (pre + post)) (drop (Z.to_nat (i - pre)) (PyStr.chars text)))
    as Hwindow.
  { unfold window. rewrite chars_slice by lia. f_equal. lia. }
  assert (pre + PyStr.len keyword ≤ PyStr.len window) as Hlen.
  { unfold PyStr.len at 2. rewrite Hwindow, length_take, length_drop.
    unfold PyStr.len in *. lia. }
  split.
  - apply chars_inj. rewrite chars_slice by lia. rewrite Hwindow.
    replace (Z.to_nat (pre + PyStr.len keyword - pre))
      with (length (PyStr.chars keyword)) by (unfold PyStr.len; lia).
    replace (Z.to_nat (pre + post)) with (Z.to_nat pre + Z.to_nat post)%nat by lia.
    rewrite <- take_drop_commute, take_take, drop_drop.
    replace (Z.to_nat (i - pre) + Z.to_nat pre)%nat with (Z.to_nat i) by lia.
    rewrite Nat.min_l by (unfold PyStr.len in *; lia). done.
  - apply chars_inj. rewrite !chars_slice by lia.
    change (Z.to_nat 0) with 0%nat. rewrite drop_0, Hwindow, take_take. f_equal.
    unfold PyStr.len in *. lia.
Qed.

Lemma window_shows_keyword_witness :
  occurs_at "the impostor" "impost" 4 ∧ 0 ≤ 2 ≤ 4 ∧ PyStr.len "impost" ≤ 7 ∧
  let window := PyStr.slice "the impostor" (4 - 2) (4 + 7) in
  PyStr.slice window 2 (2 + PyStr.len "impost") = "impost" ∧
  PyStr.slice window 0 2 = PyStr.slice "the impostor" (4 - 2) 4.
Proof.
  assert (occurs_at "the impostor" "impost" 4) as Hocc.
  { split; [vm_compute; split; discriminate|vm_compute; reflexivity]. }
  assert (0 ≤ 2 ≤ 4) as Hpre by lia.
  assert (PyStr.len "impost" ≤ 7) as Hpost by (vm_compute; discriminate).
  split; [exact Hocc|]. split; [exact Hpre|]. split; [exact Hpost|].
  exact (window_shows_keyword "the impostor" "impost" 4 2 7 Hocc Hpre Hpost).
Defined.

(** ** Word lists *)

Lemma chars_remove p s :
  PyStr.chars (PyStr.remove p s) = filter (λ c, c ≠ p) (PyStr.chars s).
Proof.
  induction s as [|c s IH]; [done|]. cbn [PyStr.remove].
  change (PyStr.chars (String c s)) with (c :: PyStr.chars s).
  rewrite filter_cons. destruct (decide (c = p)) as [->|Hne].
  - by rewrite decide_False by (by intros ?).
  - rewrite decide_True by done.
    change (PyStr.chars (String ?a ?b)) with (a :: PyStr.chars b). by rewrite IH.
Qed.

(** Removing the characters of a list one after the other removes
    exactly the characters of the list. *)
Lemma chars_remove_all ps : ∀ s,
  PyStr.chars (foldl (λ corpus p, PyStr.remove p corpus) s ps)
  = filter (λ c, c ∉ ps) (PyStr.chars s).
Proof.
  induction ps as [|p ps IH]; intros s; cbn [foldl].
  - induction (PyStr.chars s) as [|c l IHl]; [done|].
    rewrite filter_cons, decide_True by apply not_elem_of_nil. by rewrite <- IHl.
  - rewrite IH, chars_remove, list_filter_filter. apply list_filter_iff.
    intros c. rewrite not_elem_of_cons. tauto.
Qed.

Lemma remove_punctuation corpus :
  foldl (λ corpus p, PyStr.remove p corpus) corpus punctuation
  = without_punctuation corpus.
Proof.
  apply chars_inj. unfold without_punctuation.
  by rewrite chars_remove_all, chars_join.
Qed.

(** X13: [get_words] returns every word once, and a word is returned
    exactly when it is the lowercased form of an alphabetic token of the
    corpus, the tokens being the blank-separated pieces of the corpus
    with its punctuation characters deleted. *)
Theorem get_words_unique_lowercased_tokens (corpus w : string) :
  NoDup (get_words corpus) ∧
  (w ∈ get_words corpus ↔
   ∃ token, token ∈ PyStr.split (without_punctuation corpus) ∧
            PyStr.isalpha token = true ∧ w = PyStr.lower token).
Proof.
  split; [unfold get_words; apply NoDup_elements|].
  unfold get_words. rewrite elem_of_elements, elem_of_list_to_set.
  rewrite elem_of_get_words_loop, remove_punctuation. split.
  - intros [[]%not_elem_of_nil|(token & Htok & ? & ?)].
    exists token. by rewrite elem_of_elements, elem_of_list_to_set in Htok.
  - intros (token & Htok & ? & ?). right. exists token.
    by rewrite elem_of_elements, elem_of_list_to_set.
Qed.

(** X14: the combined word list of the notebook holds every word of
    either list, nothing else, and no word twice; indexed by
    [get_anagrams], it gives every word of either list a lookup result
    that contains the word and repeats nothing. *)
Theorem all_words_index_holds_each_word_once
    (shakespearean_words uk_word_list : list string) (w : string) :
  let words := all_words shakespearean_words uk_word_list in
  NoDup words ∧
  (w ∈ words ↔ w ∈ shakespearean_words ∨ w ∈ uk_word_list) ∧
  (w ∈ shakespearean_words ∨ w ∈ uk_word_list →
   w ∈ get_anagrams_from_word (get_anagrams words) w ∧
   NoDup (get_anagrams_from_word (get_anagrams words) w)).
Proof.
  intros words.
  assert (NoDup words) as Hnd by (unfold words, all_words; apply NoDup_elements).
  assert (w ∈ words ↔ w ∈ shakespearean_words ∨ w ∈ uk_word_list) as Hin.
  { unfold words, all_words.
    by rewrite elem_of_elements, elem_of_list_to_set, elem_of_app. }
  split; [done|]. split; [done|]. intros Hw%Hin.
  rewrite get_anagrams_from_word_group. split.
  - by apply elem_of_group_of.
  - by apply NoDup_filter.
Qed.

Lemma filter_words_loop words : ∀ acc,
  foldl (λ filtered_words word,
           if bool_decide (word ≠ PyStr.lower word) || negb (PyStr.isalpha word)
           then filtered_words
           else filtered_words ++ [word]) acc words
  = acc ++ filter lowercase_word words.
Proof.
  induction words as [|x words IH]; intros acc; cbn [foldl].
  - by rewrite app_nil_r.
  - rewrite IH, filter_cons.
    destruct (decide (lowercase_word x)) as [[Halpha Hlow]|Hnot].
    + rewrite Halpha, bool_decide_eq_false_2 by (by intros ?).
      cbn [orb negb]. by rewrite <- app_assoc.
    + destruct (PyStr.isalpha x) eqn:Halpha; cbn [negb]; [|by rewrite orb_true_r].
      rewrite bool_decide_eq_true_2; [done|].
      intros Heq. apply Hnot. by split.
Qed.

(** X15: the filter at the end of [get_uk_english_word_list] keeps, in
    the order of the file and with repetitions, exactly the lines that
    are alphabetic and have no upper-case letter. *)
Theorem filter_words_keeps_lowercase_lines (words : list string) :
  filter_words words = filter lowercase_word words.
Proof. unfold filter_words. by rewrite filter_words_loop. Qed.

(** ** Acquisition *)

Ltac run_M :=
  repeat (progress (unfold_M; cbv beta iota zeta));
  cbn [files dirs stdout fetched].

Lemma not_exists_inv path w :
  os_path_exists path w = (Ret false, w) →
  files w !! path = None ∧ path ∉ dirs w.
Proof.
  unfold os_path_exists. intros [= Hnone].
  apply orb_false_iff in Hnone as [Hf%bool_decide_eq_false Hd%bool_decide_eq_false].
  by rewrite not_elem_of_dom in Hf.
Qed.

Lemma download_text_cached_run env url destination_directory filename content w :
  files w !! os_path_join destination_directory filename = Some content →
  ∃ w', download_text env url destination_directory filename w
          = (Ret (Some content), w') ∧
        files w' = files w ∧ fetched w' = fetched w.
Proof.
  intros Hfile.
  pose proof (path_exists_of_file w _ content Hfile) as Hexists.
  unfold download_text. unfold_M.
  destruct (negb _); cbn [files dirs stdout fetched];
    rewrite Hexists; cbn [orb negb files]; rewrite Hfile; eauto.
Qed.

Lemma exists_of_dir path w :
  path ∈ dirs w →
  bool_decide (path ∈ dom (files w)) || bool_decide (path ∈ dirs w) = true.
Proof. intros Hd. rewrite (bool_decide_eq_true_2 (path ∈ dirs w)) by done. apply orb_true_r. Qed.

(** X16: when the destination directory exists, the target file is not
    there and the download succeeds with a body of plain text,
    [download_text] requests the URL once, saves the body under the
    target path, reports it and returns the body; run again, it returns
    the same text from the saved file and requests nothing. *)
Theorem download_text_fetches_once (env : environment)
    (url destination_directory filename body : string) (w : world) :
  let filepath := os_path_join destination_directory filename in
  destination_directory ≠ "" →
  destination_directory ∈ dirs w →
  plain_filename filename →
  os_path_exists filepath w = (Ret false, w) →
  urlretrieve_reply env url = inr body →
  plain_text body →
  ∃ w1 w2,
    download_text env url destination_directory filename w = (Ret (Some body), w1) ∧
    files w1 = <[filepath := body]> (files w) ∧
    fetched w1 = fetched w ++ [url] ∧
    stdout w1 = stdout w ++ ["Downloaded " +:+ url +:+ " to " +:+ filepath] ∧
    download_text env url destination_directory filename w1 = (Ret (Some body), w2) ∧
    files w2 = files w1 ∧ fetched w2 = fetched w1.
Proof.
  intros filepath _ Hdir _ [Hfile Hnodir]%not_exists_inv Hreply _.
  assert (bool_decide (filepath ∈ dom (files w)) = false) as Hnofile
    by (apply bool_decide_eq_false; by rewrite not_elem_of_dom).
  assert (∃ w1, download_text env url destination_directory filename w
                  = (Ret (Some body), w1) ∧
                files w1 = <[filepath := body]> (files w) ∧
                fetched w1 = fetched w ++ [url] ∧
                stdout w1 = stdout w ++ ["Downloaded " +:+ url +:+ " to " +:+ filepath])
    as (w1 & Hrun & Hfiles & Hfetched & Hout).
  { unfold download_text. unfold_M. fold filepath.
    rewrite (exists_of_dir _ _ Hdir). cbn [negb]. run_M.
    rewrite Hnofile, (bool_decide_eq_false_2 (filepath ∈ dirs w)) by done.
    cbn [orb negb]. rewrite Hreply. run_M.
    rewrite lookup_insert_eq. eauto. }
  destruct (download_text_cached_run env url destination_directory filename body w1)
    as (w2 & Hrun2 & Hfiles2 & Hfetched2).
  { fold filepath. rewrite Hfiles. apply lookup_insert_eq. }
  exists w1, w2. eauto 10.
Qed.

Lemma download_text_fetches_once_witness :
  let env := Environment (λ _, inr "THE SONNETS") (urlopen_reply offline)
               (unzip offline) (decode_cp850 offline)
               (urlretrieve_partial offline) (unzip_partial offline) in
  let filepath := os_path_join "data" "raw.txt" in
  "data" ≠ "" ∧ "data" ∈ dirs data_dir_world ∧ plain_filename "raw.txt" ∧
  os_path_exists filepath data_dir_world = (Ret false, data_dir_world) ∧
  urlretrieve_reply env gutenberg_url = inr "THE SONNETS" ∧
  plain_text "THE SONNETS" ∧
  ∃ w1 w2,
    download_text env gutenberg_url "data" "raw.txt" data_dir_world
      = (Ret (Some "THE SONNETS"), w1) ∧
    files w1 = <[filepath := "THE SONNETS"]> (files data_dir_world) ∧
    fetched w1 = fetched data_dir_world ++ [gutenberg_url] ∧
    stdout w1 = stdout data_dir_world
                ++ ["Downloaded " +:+ gutenberg_url +:+ " to " +:+ filepath] ∧
    download_text env gutenberg_url "data" "raw.txt" w1 = (Ret (Some "THE SONNETS"), w2) ∧
    files w2 = files w1 ∧ fetched w2 = fetched w1.
Proof.
  assert ("data" ≠ "") as Hne by discriminate.
  assert ("data" ∈ dirs data_dir_world) as Hdir
    by (apply (bool_decide_unpack _); vm_compute; exact I).
  assert (plain_filename "raw.txt") as Hname.
  { split; [discriminate|]. apply (bool_decide_unpack _). vm_compute. exact I. }
  assert (os_path_exists (os_path_join "data" "raw.txt") data_dir_world
          = (Ret false, data_dir_world)) as Hexists by (vm_compute; reflexivity).
  assert (plain_text "THE SONNETS") as Hplain
    by (apply (bool_decide_unpack _); vm_compute; exact I).
  split; [exact Hne|]. split; [exact Hdir|]. split; [exact Hname|].
  split; [exact Hexists|]. split; [reflexivity|]. split; [exact Hplain|].
  exact (download_text_fetches_once
           (Environment (λ _, inr "THE SONNETS") (urlopen_reply offline)
              (unzip offline) (decode_cp850 offline)
              (urlretrieve_partial offline) (unzip_partial offline))
           gutenberg_url "data" "raw.txt" "THE SONNETS" data_dir_world
           Hne Hdir Hname Hexists eq_refl Hplain).
Defined.

(** X17: what [download_text] does when the destination directory
    exists, the file is not cached and [urlretrieve] fails: the
    exception is caught, reported and [None] returned, the URL having
    been requested once.  What the broken transfer had written stays
    under the target path, and the next run takes it for the cached
    file: it returns that text and requests nothing. *)
Theorem download_text_catches (env : environment)
    (url destination_directory filename : string) (w : world) (e : exn) :
  let filepath := os_path_join destination_directory filename in
  destination_directory ≠ "" →
  destination_directory ∈ dirs w →
  os_path_exists filepath w = (Ret false, w) →
  urlretrieve_reply env url = inl e →
  ∃ w', download_text env url destination_directory filename w = (Ret None, w') ∧
        files w' = match urlretrieve_partial env url with
                   | Some written => <[filepath := written]> (files w)
                   | None => files w
                   end ∧
        fetched w' = fetched w ++ [url] ∧
        stdout w' = stdout w ++ ["Failed to download " +:+ url +:+ " to "
                                  +:+ filepath +:+ ": " +:+ exn_msg e] ∧
        ∀ written,
          urlretrieve_partial env url = Some written → plain_text written →
          ∃ w'', download_text env url destination_directory filename w'
                   = (Ret (Some written), w'') ∧
                 files w'' = files w' ∧ fetched w'' = fetched w'.
Proof.
  intros filepath _ Hdir [Hfile Hnodir]%not_exists_inv Hreply.
  assert (bool_decide (filepath ∈ dom (files w)) = false) as Hnofile
    by (apply bool_decide_eq_false; by rewrite not_elem_of_dom).
  assert (∃ w', download_text env url destination_directory filename w = (Ret None, w') ∧
                files w' = match urlretrieve_partial env url with
                           | Some written => <[filepath := written]> (files w)
                           | None => files w
                           end ∧
                fetched w' = fetched w ++ [url] ∧
                stdout w' = stdout w ++ ["Failed to download " +:+ url +:+ " to "
                                          +:+ filepath +:+ ": " +:+ exn_msg e])
    as (w' & Hrun & Hfiles & Hfetched & Hout).
  { unfold download_text. unfold_M. fold filepath.
    rewrite (exists_of_dir _ _ Hdir). cbn [negb]. run_M.
    rewrite Hnofile, (bool_decide_eq_false_2 (filepath ∈ dirs w)) by done.
    cbn [orb negb]. rewrite Hreply. run_M.
    destruct (urlretrieve_partial env url); run_M; eauto. }
  exists w'. split; [done|]. split; [done|]. split; [done|]. split; [done|].
  intros written Hpartial _.
  apply download_text_cached_run. fold filepath.
  rewrite Hfiles, Hpartial. apply lookup_insert_eq.
Qed.

Lemma download_text_catches_witness :
  let e := Exn URLError "retrieval incomplete: got only 4 out of 11 bytes" in
  let env := Environment (λ _, inl e) (urlopen_reply offline)
               (unzip offline) (decode_cp850 offline)
               (λ _, Some "THE ") (unzip_partial offline) in
  let filepath := os_path_join "data" "raw.txt" in
  "data" ≠ "" ∧ "data" ∈ dirs data_dir_world ∧
  os_path_exists filepath data_dir_world = (Ret false, data_dir_world) ∧
  urlretrieve_reply env gutenberg_url = inl e ∧
  ∃ w', download_text env gutenberg_url "data" "raw.txt" data_dir_world = (Ret None, w') ∧
        files w' = match urlretrieve_partial env gutenberg_url with
                   | Some written => <[filepath := written]> (files data_dir_world)
                   | None => files data_dir_world
                   end ∧
        fetched w' = fetched data_dir_world ++ [gutenberg_url] ∧
        stdout w' = stdout data_dir_world
                    ++ ["Failed to download " +:+ gutenberg_url +:+ " to "
                        +:+ filepath +:+ ": " +:+ exn_msg e] ∧
        ∀ written,
          urlretrieve_partial env gutenberg_url = Some written → plain_text written →
          ∃ w'', download_text env gutenberg_url "data" "raw.txt" w'
                   = (Ret (Some written), w'') ∧
                 files w'' = files w' ∧ fetched w'' = fetched w'.
Proof.
  assert ("data" ≠ "") as Hne by discriminate.
  assert ("data" ∈ dirs data_dir_world) as Hdir
    by (apply (bool_decide_unpack _); vm_compute; exact I).
  assert (os_path_exists (os_path_join "data" "raw.txt") data_dir_world
          = (Ret false, data_dir_world)) as Hexists by (vm_compute; reflexivity).
  split; [exact Hne|]. split; [exact Hdir|]. split; [exact Hexists|].
  split; [reflexivity|].
  exact (download_text_catches
           (Environment
              (λ _, inl (Exn URLError "retrieval incomplete: got only 4 out of 11 bytes"))
              (urlopen_reply offline) (unzip offline) (decode_cp850 offline)
              (λ _, Some "THE ") (unzip_partial offline))
           gutenberg_url "data" "raw.txt" data_dir_world _ Hne Hdir Hexists eq_refl).
Defined.

Lemma get_uk_english_word_list_urlopen_raises_witness :
  let e := Exn URLError "<urlopen error [Errno -2] Name or service not known>" in
  os_path_exists (os_path_join "data" "ukenglish.txt") empty_world
    = (Ret false, empty_world) ∧
  urlopen_reply offline ukenglish_url = inl e ∧
  get_uk_english_word_list offline "data" empty_world
  = (Raise e, World (files empty_world) (dirs empty_world) (stdout empty_world)
                (fetched empty_world ++ [ukenglish_url])).
Proof.
  assert (os_path_exists (os_path_join "data" "ukenglish.txt") empty_world
          = (Ret false, empty_world)) as Hexists by (vm_compute; reflexivity).
  split; [exact Hexists|]. split; [reflexivity|].
  exact (get_uk_english_word_list_urlopen_raises offline "data" empty_world _
           Hexists eq_refl).
Defined.

(** X18: when the connection opens but reading the response fails,
    [get_uk_english_word_list] catches the error, prints "Failed to
    download", returns [None] and writes no file. *)
Theorem get_uk_english_word_list_read_error_caught (env : environment)
    (directory : string) (w : world) (e : exn) :
  os_path_exists (os_path_join directory "ukenglish.txt") w = (Ret false, w) →
  urlopen_reply env ukenglish_url = inr (inl e) →
  get_uk_english_word_list env directory w
  = (Ret None,
     World (files w) (dirs w)
       (stdout w ++ ["Failed to download " +:+ ukenglish_url +:+ ": " +:+ exn_msg e])
       (fetched w ++ [ukenglish_url])).
Proof.
  intros Hexists Hreply. unfold get_uk_english_word_list. unfold_M.
  injection Hexists as Hnone. rewrite Hnone, Hreply. reflexivity.
Qed.

Lemma get_uk_english_word_list_read_error_caught_witness :
  let e := Exn IncompleteRead "IncompleteRead(0 bytes read)" in
  let env := Environment (urlretrieve_reply offline) (λ _, inr (inl e))
               (unzip offline) (decode_cp850 offline)
               (urlretrieve_partial offline) (unzip_partial offline) in
  os_path_exists (os_path_join "data" "ukenglish.txt") empty_world
    = (Ret false, empty_world) ∧
  urlopen_reply env ukenglish_url = inr (inl e) ∧
  get_uk_english_word_list env "data" empty_world
  = (Ret None,
     World (files empty_world) (dirs empty_world)
       (stdout empty_world
        ++ ["Failed to download " +:+ ukenglish_url +:+ ": " +:+ exn_msg e])
       (fetched empty_world ++ [ukenglish_url])).
Proof.
  assert (os_path_exists (os_path_join "data" "ukenglish.txt") empty_world
          = (Ret false, empty_world)) as Hexists by (vm_compute; reflexivity).
  split; [exact Hexists|]. split; [reflexivity|].
  exact (get_uk_english_word_list_read_error_caught
           (Environment (urlretrieve_reply offline)
              (λ _, inr (inl (Exn IncompleteRead "IncompleteRead(0 bytes read)")))
              (unzip offline) (decode_cp850 offline)
               (urlretrieve_partial offline) (unzip_partial offline))
           "data" empty_world _ Hexists eq_refl).
Defined.

(** Extracting members writes them in order and does nothing else to
    the files; it prints nothing and requests nothing. *)
Lemma extract_members_run members directory : ∀ (k : M ()) w w0,
  k w = (Ret (), w0) →
  ∃ w1, foldl (λ (k : M ()) '(name, content),
                 _ ← k;
                 _ ← os_makedirs directory;
                 write_file (os_path_join directory name) content) k members w
        = (Ret (), w1) ∧
        files w1 = extracted_files members directory (files w0) ∧
        stdout w1 = stdout w0 ∧ fetched w1 = fetched w0.
Proof.
  induction members as [|[name content] members IH]; intros k w w0 Hk.
  - exists w0. by rewrite <- Hk.
  - cbn [foldl].
    destruct (IH (_ ← k; _ ← os_makedirs directory;
                  write_file (os_path_join directory name) content) w
                (World (<[os_path_join directory name := content]> (files w0))
                   ({[directory]} ∪ dirs w0) (stdout w0) (fetched w0)))
      as (w1 & Hrun & Hfiles & Hout & Hfetched).
    + unfold_M. by rewrite Hk.
    + exists w1. by rewrite Hrun.
Qed.

Lemma extract_members_files members directory w :
  ∃ w1, extract_members members directory w = (Ret (), w1) ∧
        files w1 = extracted_files members directory (files w) ∧
        stdout w1 = stdout w ∧ fetched w1 = fetched w.
Proof. by apply extract_members_run. Qed.

(** X19: when the body is downloaded but its extraction as a zip archive
    fails, [get_uk_english_word_list] catches the error, prints "Failed
    to extract" and returns [None]; the members that the extraction had
    written before it failed stay in the directory (none when the body
    is no archive at all). *)
Theorem get_uk_english_word_list_extract_error_caught (env : environment)
    (directory body : string) (w : world) (e : exn) :
  os_path_exists (os_path_join directory "ukenglish.txt") w = (Ret false, w) →
  urlopen_reply env ukenglish_url = inr (inr body) →
  unzip env body = inl e →
  ∃ w', get_uk_english_word_list env directory w = (Ret None, w') ∧
        files w' = extracted_files (unzip_partial env body) directory (files w) ∧
        stdout w' = stdout w ++ ["Failed to extract " +:+ ukenglish_url +:+ ": "
                                  +:+ exn_msg e] ∧
        fetched w' = fetched w ++ [ukenglish_url].
Proof.
  intros Hexists Hreply Hzip.
  destruct (extract_members_files (unzip_partial env body) directory
              (World (files w) (dirs w) (stdout w) (fetched w ++ [ukenglish_url])))
    as (w1 & Hrun & Hfiles & Hout & Hfetched).
  unfold get_uk_english_word_list, extractall. unfold_M.
  injection Hexists as Hnone. rewrite Hnone, Hreply. run_M.
  rewrite Hzip. run_M. rewrite Hrun. run_M.
  eexists. split; [reflexivity|]. cbn [files dirs stdout fetched].
  by rewrite Hfiles, Hout, Hfetched.
Qed.

Lemma get_uk_english_word_list_extract_error_caught_witness :
  let e := Exn BadZipFile "Bad CRC-32 for file 'readme.txt'" in
  let env := Environment (urlretrieve_reply offline) (λ _, inr (inr "PK"))
               (λ _, inl e) (decode_cp850 offline)
               (urlretrieve_partial offline) (λ _, [("ukenglish.txt", "a")]) in
  os_path_exists (os_path_join "data" "ukenglish.txt") empty_world
    = (Ret false, empty_world) ∧
  urlopen_reply env ukenglish_url = inr (inr "PK") ∧
  unzip env "PK" = inl e ∧
  ∃ w', get_uk_english_word_list env "data" empty_world = (Ret None, w') ∧
        files w' = extracted_files (unzip_partial env "PK") "data" (files empty_world) ∧
        stdout w' = stdout empty_world
                    ++ ["Failed to extract " +:+ ukenglish_url +:+ ": " +:+ exn_msg e] ∧
        fetched w' = fetched empty_world ++ [ukenglish_url].
Proof.
  assert (os_path_exists (os_path_join "data" "ukenglish.txt") empty_world
          = (Ret false, empty_world)) as Hexists by (vm_compute; reflexivity).
  split; [exact Hexists|]. split; [reflexivity|]. split; [reflexivity|].
  exact (get_uk_english_word_list_extract_error_caught
           (Environment (urlretrieve_reply offline) (λ _, inr (inr "PK"))
              (λ _, inl (Exn BadZipFile "Bad CRC-32 for file 'readme.txt'"))
              (decode_cp850 offline)
              (urlretrieve_partial offline) (λ _, [("ukenglish.txt", "a")]))
           "data" "PK" empty_world _ Hexists eq_refl eq_refl).
Defined.

Lemma get_uk_english_word_list_cached_run env directory content w :
  files w !! os_path_join directory "ukenglish.txt" = Some content →
  get_uk_english_word_list env directory w
  = (Ret (Some (filter_words
        (PyStr.split_on PyStr.newline (decode_cp850 env content)))),
     World (files w) (dirs w)
       (stdout w ++ ["Reading from cached file "
                     +:+ os_path_join directory "ukenglish.txt"])
       (fetched w)).
Proof.
  intros Hfile.
  pose proof (path_exists_of_file w _ content Hfile) as Hexists.
  unfold get_uk_english_word_list. unfold_M.
  rewrite Hexists. cbn [orb files]. by rewrite Hfile.
Qed.

(** X20: when the dictionary is not cached, the download succeeds and
    the archive holds the one member [ukenglish.txt],
    [get_uk_english_word_list] requests the URL once, extracts the file
    into the directory and returns its filtered lines; run again, it
    returns the same list from the extracted file and requests nothing.
    The directory must be one for which [os.path.join] and the path
    written with a slash agree. *)
Theorem get_uk_english_word_list_fetches_once (env : environment)
    (directory body content : string) (w : world) :
  let filepath := os_path_join directory "ukenglish.txt" in
  let words := filter_words
                 (PyStr.split_on PyStr.newline (decode_cp850 env content)) in
  filepath = directory +:+ "/ukenglish.txt" →
  os_path_exists filepath w = (Ret false, w) →
  urlopen_reply env ukenglish_url = inr (inr body) →
  unzip env body = inr [("ukenglish.txt", content)] →
  ∃ w1 w2,
    get_uk_english_word_list env directory w = (Ret (Some words), w1) ∧
    files w1 = <[filepath := content]> (files w) ∧
    fetched w1 = fetched w ++ [ukenglish_url] ∧
    stdout w1 = stdout w ∧
    get_uk_english_word_list env directory w1 = (Ret (Some words), w2) ∧
    files w2 = files w1 ∧ fetched w2 = fetched w1.
Proof.
  intros filepath words Hpath Hexists Hreply Hzip.
  assert (∃ w1, get_uk_english_word_list env directory w = (Ret (Some words), w1) ∧
                files w1 = <[filepath := content]> (files w) ∧
                fetched w1 = fetched w ++ [ukenglish_url] ∧
                stdout w1 = stdout w) as (w1 & Hrun & Hfiles & Hfetched & Hout).
  { unfold get_uk_english_word_list, extractall, extract_members. unfold_M.
    fold filepath.
    injection Hexists as Hnone. rewrite Hnone, Hreply. run_M.
    rewrite Hzip. cbn [foldl]. run_M.
    fold filepath. rewrite <- Hpath, lookup_insert_eq. eauto. }
  exists w1, (World (files w1) (dirs w1)
                (stdout w1 ++ ["Reading from cached file " +:+ filepath]) (fetched w1)).
  split; [done|]. split; [done|]. split; [done|]. split; [done|].
  split; [|done].
  apply get_uk_english_word_list_cached_run. fold filepath.
  rewrite Hfiles. apply lookup_insert_eq.
Qed.

Lemma get_uk_english_word_list_fetches_once_witness :
  let content := "a
Aaron
ab
" in
  let env := Environment (urlretrieve_reply offline) (λ _, inr (inr "PK"))
               (λ _, inr [("ukenglish.txt", content)]) (decode_cp850 offline)
               (urlretrieve_partial offline) (unzip_partial offline) in
  let filepath := os_path_join "data" "ukenglish.txt" in
  let words := filter_words
                 (PyStr.split_on PyStr.newline (decode_cp850 env content)) in
  filepath = "data" +:+ "/ukenglish.txt" ∧
  os_path_exists filepath empty_world = (Ret false, empty_world) ∧
  urlopen_reply env ukenglish_url = inr (inr "PK") ∧
  unzip env "PK" = inr [("ukenglish.txt", content)] ∧
  ∃ w1 w2,
    get_uk_english_word_list env "data" empty_world = (Ret (Some words), w1) ∧
    files w1 = <[filepath := content]> (files empty_world) ∧
    fetched w1 = fetched empty_world ++ [ukenglish_url] ∧
    stdout w1 = stdout empty_world ∧
    get_uk_english_word_list env "data" w1 = (Ret (Some words), w2) ∧
    files w2 = files w1 ∧ fetched w2 = fetched w1.
Proof.
  assert (os_path_exists (os_path_join "data" "ukenglish.txt") empty_world
          = (Ret false, empty_world)) as Hexists by (vm_compute; reflexivity).
  split; [reflexivity|]. split; [exact Hexists|].
  split; [reflexivity|]. split; [reflexivity|].
  exact (get_uk_english_word_list_fetches_once
           (Environment (urlretrieve_reply offline) (λ _, inr (inr "PK"))
              (λ _, inr [("ukenglish.txt", "a
Aaron
ab
")]) (decode_cp850 offline)
               (urlretrieve_partial offline) (unzip_partial offline))
           "data" "PK" _ empty_world eq_refl Hexists eq_refl eq_refl).
Defined.

Section filter_text_runs.
Import PyStr.

Lemma getitem_beyond text i : len text ≤ i → getitem text i = None.
Proof.
  intros Hi. pose proof (len_nonneg text). unfold getitem. cbv zeta.
  assert ((i <? 0) = false) as Hlo by (apply Z.ltb_ge; lia).
  assert ((len text <=? i) = true) as Hhi by (apply Z.leb_le; lia).
  by rewrite !Hlo, Hhi.
Qed.

(** With nothing but newlines left, the first loop of [filter_text]
    runs off the end of the text. *)
Lemma skip_newlines_raises text s : ∀ pre fuel,
  chars text = pre ++ s →
  (length s < fuel)%nat →
  Forall (λ c, c = newline) s →
  skip_newlines fuel text (Z.of_nat (length pre))
  = Raise (Exn IndexError "string index out of range").
Proof.
  induction s as [|c s IH]; intros pre fuel Ht Hfuel Hall.
  - destruct fuel as [|fuel]; [simpl in Hfuel; lia|]. cbn [skip_newlines].
    rewrite getitem_beyond; [done|]. unfold len. rewrite Ht, app_nil_r. lia.
  - destruct fuel as [|fuel]; [lia|]. cbn [skip_newlines].
    rewrite (getitem_inside text pre c s Ht).
    apply Forall_cons in Hall as [-> Hall]. rewrite decide_True by done.
    replace (Z.of_nat (length pre) + 1) with (Z.of_nat (length (pre ++ [newline])))
      by (rewrite length_app; simpl; lia).
    apply IH; [by rewrite <- app_assoc|simpl in Hfuel; lia|done].
Qed.

Lemma skip_newlines_stops fuel : ∀ text start start',
  0 ≤ start →
  skip_newlines fuel text start = Ret start' →
  start ≤ start' ∧ ∃ c, getitem text start' = Some c ∧ c ≠ newline.
Proof.
  induction fuel as [|fuel IH]; intros text start start' Hlo Hrun; [done|].
  cbn [skip_newlines] in Hrun.
  destruct (getitem text start) as [c|] eqn:Hget; [|done].
  destruct (decide (c = newline)) as [->|Hc].
  - apply IH in Hrun as [? ?]; [|lia]. split; [lia|done].
  - injection Hrun as <-. split; [lia|eauto].
Qed.

Lemma strip_newlines_stops fuel : ∀ text end_ end',
  strip_newlines fuel text end_ = Ret end' →
  end' ≤ end_ ∧ ∃ c, getitem text (end' - 1) = Some c ∧ c ≠ newline.
Proof.
  induction fuel as [|fuel IH]; intros text end_ end' Hrun; [done|].
  cbn [strip_newlines] in Hrun.
  destruct (getitem text (end_ - 1)) as [c|] eqn:Hget; [|done].
  destruct (decide (c = newline)) as [->|Hc].
  - apply IH in Hrun as [? ?]. split; [lia|done].
  - injection Hrun as <-. split; [lia|eauto].
Qed.

(** The first and the last character of a non-empty slice. *)
Lemma slice_ends text a b c1 c2 :
  0 ≤ a →
  getitem text a = Some c1 →
  getitem text (b - 1) = Some c2 →
  slice text a b ≠ "" →
  head (chars (slice text a b)) = Some c1 ∧ last (chars (slice text a b)) = Some c2.
Proof.
  intros Ha Hget1 Hget2 Hne. pose proof (len_nonneg text) as Hlen.
  unfold getitem in Hget1, Hget2.
  assert ((a <? 0) = false) as Ha0 by (apply Z.ltb_ge; lia).
  rewrite !Ha0 in Hget1. cbn [orb] in Hget1.
  destruct (Z.leb_spec (len text) a) as [?|Halt]; [done|].
  assert (chars (slice text a b)
          = take (Z.to_nat (clamp text b - a)) (drop (Z.to_nat a) (chars text)))
    as Hchars.
  { unfold slice. rewrite chars_join. unfold clamp at 2 3. rewrite Ha0.
    by replace (Z.max 0 (Z.min (len text) a)) with a by lia. }
  assert (a < clamp text b) as Hlt.
  { destruct (Z.lt_ge_cases a (clamp text b)); [done|]. destruct Hne.
    apply chars_inj. rewrite Hchars.
    by replace (Z.to_nat (clamp text b - a)) with 0%nat by lia. }
  assert (clamp text b ≤ len text) as Hhi by (unfold clamp; lia).
  assert (chars text !! Z.to_nat (clamp text b - 1) = Some c2) as Hlast.
  { unfold clamp in *.
    destruct (Z.ltb_spec (b - 1) 0) as [Hneg|Hpos].
    - destruct (Z.ltb_spec (b - 1 + len text) 0); [done|].
      destruct (Z.leb_spec (len text) (b - 1 + len text)); [done|].
      destruct (Z.ltb_spec b 0); [|lia].
      by replace (Z.max 0 (Z.min (len text) (b + len text)) - 1)
        with (b - 1 + len text) by lia.
    - rewrite (proj2 (Z.ltb_ge (b - 1) 0)) in Hget2 by lia. cbn [orb] in Hget2.
      destruct (Z.leb_spec (len text) (b - 1)); [done|].
      destruct (Z.ltb_spec b 0); [lia|].
      by replace (Z.max 0 (Z.min (len text) b) - 1) with (b - 1) by lia. }
  rewrite Hchars. split.
  - rewrite head_lookup, lookup_take_lt, lookup_drop by lia.
    by rewrite Nat.add_0_r.
  - rewrite last_lookup, length_take, length_drop.
    unfold len in *. rewrite lookup_take_lt, lookup_drop by lia.
    rewrite <- Hlast. f_equal. lia.
Qed.

Lemma filter_text_cached_run text destination_directory filename content w :
  files w !! os_path_join destination_directory filename = Some content →
  filter_text text destination_directory filename w
  = (Ret (Some content),
     World (files w) (dirs w)
       (stdout w ++ ["Reading from cached file "
                     +:+ os_path_join destination_directory filename])
       (fetched w)).
Proof.
  intros Hfile.
  pose proof (path_exists_of_file w _ content Hfile) as Hexists.
  unfold filter_text. unfold_M. rewrite Hexists. cbn [orb files]. by rewrite Hfile.
Qed.

(** What an uncached run of [filter_text] that returns a text has done:
    both loops returned, and the slice between their results was saved
    and returned. *)
Lemma filter_text_uncached_run text destination_directory filename w filtered w1 :
  os_path_exists (os_path_join destination_directory filename) w = (Ret false, w) →
  filter_text text destination_directory filename w = (Ret (Some filtered), w1) →
  ∃ start end_,
    skip_newlines (loop_fuel text) text (find text start_tok 0 + len start_tok)
      = Ret start ∧
    strip_newlines (loop_fuel text) text (find text end_tok 0) = Ret end_ ∧
    find text start_tok 0 ≠ -1 ∧
    filtered = slice text start end_ ∧
    w1 = World (<[os_path_join destination_directory filename := filtered]> (files w))
           (dirs w) (stdout w) (fetched w).
Proof.
  intros Hexists. unfold filter_text. unfold_M.
  injection Hexists as Hnone. rewrite Hnone.
  destruct (bool_decide (find text start_tok 0 = -1)) eqn:Hstart; [done|].
  apply bool_decide_eq_false in Hstart.
  destruct (skip_newlines _ _ _) as [start| |]; [|done..].
  destruct (bool_decide (find text end_tok 0 = -1)); [done|].
  destruct (strip_newlines _ _ _) as [end_| |]; [|done..].
  intros [= <- <-]. eauto 10.
Qed.

End filter_text_runs.

(** X22: when the filtered file is not cached and nothing but newlines
    follows the first start marker, [filter_text] raises [IndexError]:
    the index of its first loop runs past the end of the text.  Nothing
    is printed and no file is written. *)
Theorem filter_text_index_error_after_start_marker
    (text destination_directory filename : string) (w : world) :
  let start := PyStr.find text start_tok 0 in
  os_path_exists (os_path_join destination_directory filename) w = (Ret false, w) →
  start ≠ -1 →
  Forall (λ c, c = PyStr.newline)
    (drop (Z.to_nat (start + PyStr.len start_tok)) (PyStr.chars text)) →
  filter_text text destination_directory filename w
  = (Raise (Exn IndexError "string index out of range"), w).
Proof.
  intros start Hexists Hstart Hrest.
  unfold filter_text. unfold_M. injection Hexists as Hnone. rewrite Hnone.
  fold start. rewrite bool_decide_eq_false_2 by done.
  destruct (find_range text start_tok) as [?|[Hlo Hhi]]; [done|]. fold start in Hlo, Hhi.
  pose proof (len_nonneg start_tok) as Htok.
  set (k := Z.to_nat (start + PyStr.len start_tok)) in *.
  assert (k ≤ length (PyStr.chars text))%nat as Hk by (unfold PyStr.len in *; lia).
  pose proof (skip_newlines_raises text (drop k (PyStr.chars text))
                (take k (PyStr.chars text)) (loop_fuel text)) as Hskip.
  rewrite length_take, Nat.min_l in Hskip by done.
  replace (Z.of_nat k) with (start + PyStr.len start_tok) in Hskip by lia.
  rewrite Hskip; [done|by rewrite take_drop| |done].
  rewrite length_drop. unfold loop_fuel. lia.
Qed.

Lemma filter_text_index_error_after_start_marker_witness :
  let text := "THE COMPLETE WORKS OF WILLIAM SHAKESPEARE ***

" in
  let start := PyStr.find text start_tok 0 in
  os_path_exists (os_path_join "data" "complete_shakespeare.txt") empty_world
    = (Ret false, empty_world) ∧
  start ≠ -1 ∧
  Forall (λ c, c = PyStr.newline)
    (drop (Z.to_nat (start + PyStr.len start_tok)) (PyStr.chars text)) ∧
  filter_text text "data" "complete_shakespeare.txt" empty_world
  = (Raise (Exn IndexError "string index out of range"), empty_world).
Proof.
  assert (os_path_exists (os_path_join "data" "complete_shakespeare.txt") empty_world
          = (Ret false, empty_world)) as Hexists by (vm_compute; reflexivity).
  assert (PyStr.find "THE COMPLETE WORKS OF WILLIAM SHAKESPEARE ***

" start_tok 0 ≠ -1) as Hstart by (vm_compute; discriminate).
  assert (Forall (λ c, c = PyStr.newline)
            (drop (Z.to_nat (PyStr.find "THE COMPLETE WORKS OF WILLIAM SHAKESPEARE ***

" start_tok 0 + PyStr.len start_tok))
               (PyStr.chars "THE COMPLETE WORKS OF WILLIAM SHAKESPEARE ***

"))) as Hrest by (vm_compute; repeat constructor).
  split; [exact Hexists|]. split; [exact Hstart|]. split; [exact Hrest|].
  exact (filter_text_index_error_after_start_marker _ "data"
           "complete_shakespeare.txt" empty_world Hexists Hstart Hrest).
Defined.

(** X23: in an existing destination directory, an uncached run of
    [filter_text] that returns a text has saved that text under the
    target path, printed nothing and requested nothing; when the text is
    plain text, every later run, whatever text it is given, returns the
    saved text. *)
Theorem filter_text_saves_then_reuses
    (text destination_directory filename filtered : string) (w w1 : world) :
  let filepath := os_path_join destination_directory filename in
  destination_directory ≠ "" →
  destination_directory ∈ dirs w →
  plain_filename filename →
  os_path_exists filepath w = (Ret false, w) →
  filter_text text destination_directory filename w = (Ret (Some filtered), w1) →
  plain_text filtered →
  w1 = World (<[filepath := filtered]> (files w)) (dirs w) (stdout w) (fetched w) ∧
  ∀ other_text,
    filter_text other_text destination_directory filename w1
    = (Ret (Some filtered),
       World (files w1) (dirs w1)
         (stdout w1 ++ ["Reading from cached file " +:+ filepath]) (fetched w1)).
Proof.
  intros filepath _ _ _ Hexists Hrun _.
  destruct (filter_text_uncached_run _ _ _ _ _ _ Hexists Hrun)
    as (start & end_ & _ & _ & _ & _ & Hw1).
  split; [done|]. intros other_text.
  apply filter_text_cached_run. rewrite Hw1. apply lookup_insert_eq.
Qed.

Lemma filter_text_saves_then_reuses_witness :
  let text := "THE COMPLETE WORKS OF WILLIAM SHAKESPEARE ***

THE SONNETS

*** END OF THE PROJECT GUTENBERG EBOOK 100 ***" in
  let filepath := os_path_join "data" "complete_shakespeare.txt" in
  let w1 := World {[filepath := "THE SONNETS"]} {["data"]} [] [] in
  "data" ≠ "" ∧ "data" ∈ dirs data_dir_world ∧
  plain_filename "complete_shakespeare.txt" ∧
  os_path_exists filepath data_dir_world = (Ret false, data_dir_world) ∧
  filter_text text "data" "complete_shakespeare.txt" data_dir_world
    = (Ret (Some "THE SONNETS"), w1) ∧
  plain_text "THE SONNETS" ∧
  w1 = World (<[filepath := "THE SONNETS"]> (files data_dir_world))
         (dirs data_dir_world) (stdout data_dir_world) (fetched data_dir_world) ∧
  ∀ other_text,
    filter_text other_text "data" "complete_shakespeare.txt" w1
    = (Ret (Some "THE SONNETS"),
       World (files w1) (dirs w1)
         (stdout w1 ++ ["Reading from cached file " +:+ filepath]) (fetched w1)).
Proof.
  assert ("data" ≠ "") as Hne by discriminate.
  assert ("data" ∈ dirs data_dir_world) as Hdir
    by (apply (bool_decide_unpack _); vm_compute; exact I).
  assert (plain_filename "complete_shakespeare.txt") as Hname.
  { split; [discriminate|]. apply (bool_decide_unpack _). vm_compute. exact I. }
  assert (os_path_exists (os_path_join "data" "complete_shakespeare.txt") data_dir_world
          = (Ret false, data_dir_world)) as Hexists by (vm_compute; reflexivity).
  assert (filter_text "THE COMPLETE WORKS OF WILLIAM SHAKESPEARE ***

THE SONNETS

*** END OF THE PROJECT GUTENBERG EBOOK 100 ***" "data" "complete_shakespeare.txt"
            data_dir_world
          = (Ret (Some "THE SONNETS"),
             World {[os_path_join "data" "complete_shakespeare.txt" := "THE SONNETS"]}
               {["data"]} [] [])) as Hrun by (vm_compute; reflexivity).
  assert (plain_text "THE SONNETS") as Hplain
    by (apply (bool_decide_unpack _); vm_compute; exact I).
  split; [exact Hne|]. split; [exact Hdir|]. split; [exact Hname|].
  split; [exact Hexists|]. split; [exact Hrun|]. split; [exact Hplain|].
  exact (filter_text_saves_then_reuses _ "data" "complete_shakespeare.txt"
           "THE SONNETS" data_dir_world _ Hne Hdir Hname Hexists Hrun Hplain).
Defined.

(** X24: the text that an uncached run of [filter_text] returns, when it
    is not empty, neither begins nor ends with a newline: the two loops
    moved the slice bounds past the blank lines after the start marker
    and before the end marker. *)
Theorem filter_text_strips_blank_lines
    (text destination_directory filename filtered : string) (w w1 : world) :
  os_path_exists (os_path_join destination_directory filename) w = (Ret false, w) →
  filter_text text destination_directory filename w = (Ret (Some filtered), w1) →
  filtered ≠ "" →
  head (PyStr.chars filtered) ≠ Some PyStr.newline ∧
  last (PyStr.chars filtered) ≠ Some PyStr.newline.
Proof.
  intros Hexists Hrun Hne.
  destruct (filter_text_uncached_run _ _ _ _ _ _ Hexists Hrun)
    as (start & end_ & Hskip & Hstrip & Hfound & -> & _).
  destruct (find_range text start_tok) as [?|[Hlo _]]; [done|].
  pose proof (len_nonneg start_tok).
  apply skip_newlines_stops in Hskip as [Hstart (c1 & Hget1 & Hc1)]; [|lia].
  apply strip_newlines_stops in Hstrip as [_ (c2 & Hget2 & Hc2)].
  destruct (slice_ends text start end_ c1 c2) as [-> ->]; [lia|done..|].
  split; congruence.
Qed.

Lemma filter_text_strips_blank_lines_witness :
  let text := "THE COMPLETE WORKS OF WILLIAM SHAKESPEARE ***

THE SONNETS

*** END OF THE PROJECT GUTENBERG EBOOK 100 ***" in
  let w1 := World {[os_path_join "data" "complete_shakespeare.txt" := "THE SONNETS"]}
              {["data"]} [] [] in
  os_path_exists (os_path_join "data" "complete_shakespeare.txt") data_dir_world
    = (Ret false, data_dir_world) ∧
  filter_text text "data" "complete_shakespeare.txt" data_dir_world
    = (Ret (Some "THE SONNETS"), w1) ∧
  "THE SONNETS" ≠ "" ∧
  head (PyStr.chars "THE SONNETS") ≠ Some PyStr.newline ∧
  last (PyStr.chars "THE SONNETS") ≠ Some PyStr.newline.
Proof.
  assert (os_path_exists (os_path_join "data" "complete_shakespeare.txt") data_dir_world
          = (Ret false, data_dir_world)) as Hexists by (vm_compute; reflexivity).
  assert (filter_text "THE COMPLETE WORKS OF WILLIAM SHAKESPEARE ***

THE SONNETS

*** END OF THE PROJECT GUTENBERG EBOOK 100 ***" "data" "complete_shakespeare.txt"
            data_dir_world
          = (Ret (Some "THE SONNETS"),
             World {[os_path_join "data" "complete_shakespeare.txt" := "THE SONNETS"]}
               {["data"]} [] [])) as Hrun by (vm_compute; reflexivity).
  assert ("THE SONNETS" ≠ "") as Hne by discriminate.
  split; [exact Hexists|]. split; [exact Hrun|]. split; [exact Hne|].
  exact (filter_text_strips_blank_lines _ "data" "complete_shakespeare.txt"
           "THE SONNETS" data_dir_world _ Hexists Hrun Hne).
Defined.
